(** * rn-tfjs-face-detection: the detection loop of [App.tsx] and of its
      earlier variant, embedded in Rocq.

    The React component is a set of async functions that talk to four
    external collaborators: the camera (permission, tensor iterator), the
    TensorFlow.js engine, the blazeface model and a 2D canvas.  Every call
    to a collaborator is recorded as an event of the world; what a
    collaborator answers is taken from an environment of outcomes.  Async
    functions are computations in a state-and-rejection monad; the host's
    timers and animation frames are a task list driven by a schedule. *)

From Stdlib Require Import ZArith List String Bool Lia PeanoNat.
Import ListNotations.
Open Scope string_scope.
Open Scope Z_scope.

Set Implicit Arguments.

(** ** JavaScript values the code handles *)

(** A thrown value.  [Error(msg)] is what the code throws itself; a
    [TypeError] is what the JavaScript engine throws on a member access on
    [undefined] or [null].  The text of a [TypeError] is the engine's own
    (Hermes's wording is used below) and nothing stated here depends on it. *)
Inductive JsError : Type :=
| Error (message : string)
| TypeError (message : string).

(** [Error.prototype.toString]: the name alone when the message is empty,
    otherwise the name, a colon and the message. *)
Definition error_toString (name message : string) : string :=
  if (message =? "")%string then name else name ++ ": " ++ message.

(** Template-literal rendering [`${error}`] of a thrown value. *)
Definition render_error (e : JsError) : string :=
  match e with
  | Error m => error_toString "Error" m
  | TypeError m => error_toString "TypeError" m
  end.

(** A settled promise. *)
Inductive Settled (A : Type) : Type :=
| Resolved (a : A)
| Rejected (e : JsError).
Arguments Resolved {A} a.
Arguments Rejected {A} e.

(** A tensor object, known by its identity. *)
Definition Tensor : Type := nat.

(** [blazeface.NormalizedFace], the two fields the code reads; the
    coordinates are pixel positions. *)
Record NormalizedFace : Type := mkFace {
  topLeft : Z * Z;
  bottomRight : Z * Z
}.

(** [blazeface.BlazeFaceModel]: [estimateFaces(input, returnTensors,
    flipHorizontal?)]; the third argument is [None] when the call omits it. *)
Record BlazeFaceModel : Type := mkModel {
  estimateFaces : Tensor -> bool -> option bool -> Settled (list NormalizedFace)
}.

(** [interface LoadModel] of App.tsx. *)
Record LoadModel : Type := mkLoadModel {
  isTfReady : bool;
  blazefaceModel : option BlazeFaceModel
}.

(** [const CAMERA_SIZE = { height: 480, width: 320 }] (both variants that
    draw). *)
Record Size : Type := mkSize { height : Z; width : Z }.
Definition CAMERA_SIZE : Size := {| height := 480; width := 320 |}.

(** ** The canvas *)

(** Calls on the canvas and on its 2D context, in the order issued. *)
Inductive CanvasOp : Type :=
| SetHeight (h : Z)
| SetWidth (w : Z)
| SetStrokeStyle (s : string)
| SetLineWidth (n : Z)
| StrokeRect (x y w h : Z)
| ClearRect (x y w h : Z).

(** A mounted canvas: its attributes, the context's stroke settings and
    the calls received so far. *)
Record Canvas : Type := mkCanvas {
  c_height : Z;
  c_width : Z;
  c_strokeStyle : string;
  c_lineWidth : Z;
  c_ops : list CanvasOp
}.

Definition set_height (h : Z) (c : Canvas) : Canvas :=
  {| c_height := h; c_width := c_width c; c_strokeStyle := c_strokeStyle c;
     c_lineWidth := c_lineWidth c; c_ops := c_ops c ++ [SetHeight h] |}.

Definition set_width (w : Z) (c : Canvas) : Canvas :=
  {| c_height := c_height c; c_width := w; c_strokeStyle := c_strokeStyle c;
     c_lineWidth := c_lineWidth c; c_ops := c_ops c ++ [SetWidth w] |}.

Definition set_strokeStyle (s : string) (c : Canvas) : Canvas :=
  {| c_height := c_height c; c_width := c_width c; c_strokeStyle := s;
     c_lineWidth := c_lineWidth c; c_ops := c_ops c ++ [SetStrokeStyle s] |}.

Definition set_lineWidth (n : Z) (c : Canvas) : Canvas :=
  {| c_height := c_height c; c_width := c_width c;
     c_strokeStyle := c_strokeStyle c; c_lineWidth := n;
     c_ops := c_ops c ++ [SetLineWidth n] |}.

Definition push_op (op : CanvasOp) (c : Canvas) : Canvas :=
  {| c_height := c_height c; c_width := c_width c;
     c_strokeStyle := c_strokeStyle c; c_lineWidth := c_lineWidth c;
     c_ops := c_ops c ++ [op] |}.

Definition strokeRect (x y w h : Z) : Canvas -> Canvas :=
  push_op (StrokeRect x y w h).

Definition clearRect (x y w h : Z) : Canvas -> Canvas :=
  push_op (ClearRect x y w h).

(** ** The world *)

(** What [console.log] is given. *)
Inductive LogMsg : Type :=
| LogText (s : string)
| LogFaces (n : nat)              (* `[+] 측정 얼굴 수 [${n}]` *)
| LogIsEstimate (b : bool)        (* "얼굴을 예측하였는가?", b *)
| LogError (e : JsError)          (* console.log(error) *)
| LogTfReadyError (e : JsError).  (* "(-) Tensorflow Ready Error ::: ", e *)

(** Calls on the collaborators other than the canvas. *)
Inductive Event : Type :=
| EvRequestPermission
| EvSetBackend (name : string)
| EvTfReady
| EvStartScope
| EvEndScope
| EvLoad
| EvEstimate (t : Tensor) (returnTensors : bool) (flipHorizontal : option bool)
| EvDispose (t : Tensor)
| EvNext
| EvLog (m : LogMsg)
| EvSetTimeout (ms : Z)
| EvRequestAnimationFrame.

(** The world a component lives in; [S] is the type of its React state. *)
Record World (S : Type) : Type := mkWorld {
  events : list Event;        (* oldest first *)
  canvas : option Canvas;     (* canvasRef.current *)
  rstate : S;                 (* the useState cell *)
  pulled : nat;               (* images.next() calls so far *)
  loads : nat;                (* blazeface.load() calls so far *)
  scopes : list (list Tensor) (* the engine's open scopes, innermost first,
                                 each with the camera tensors it tracks *)
}.

(** What the collaborators answer. *)
Record Env : Type := mkEnv {
  permission_status : string;                  (* requestCameraPermissionsAsync *)
  backend : Settled bool;                      (* tf.setBackend('rn-webgl') *)
  ready : Settled unit;                        (* tf.ready() *)
  blazeface_load : nat -> Settled BlazeFaceModel;  (* the k-th blazeface.load() *)
  images : nat -> option Tensor                (* the k-th images.next().value *)
}.

(** ** Async functions: state and rejection *)

Definition M (S A : Type) : Type := World S -> World S * Settled A.

Definition ret {S A} (a : A) : M S A := fun w => (w, Resolved a).

Definition throw {S A} (e : JsError) : M S A := fun w => (w, Rejected e).

Definition bind {S A B} (m : M S A) (k : A -> M S B) : M S B :=
  fun w =>
    match m w with
    | (w', Resolved a) => k a w'
    | (w', Rejected e) => (w', Rejected e)
    end.

(** [p.then(f).catch(g)]: [g] also sees what [f] throws. *)
Definition then_catch {S A B} (p : M S A) (f : A -> M S B) (g : JsError -> M S B)
  : M S B :=
  fun w =>
    match bind p f w with
    | (w', Resolved b) => (w', Resolved b)
    | (w', Rejected e) => g e w'
    end.

Declare Scope js_scope.
Delimit Scope js_scope with js.
Notation "x <- m ;; k" := (bind m (fun x => k))
  (at level 61, m at next level, right associativity) : js_scope.
Notation "m ;; k" := (bind m (fun _ => k))
  (at level 61, right associativity) : js_scope.
Open Scope js_scope.

Definition emit {S} (e : Event) : M S unit :=
  fun w => ({| events := events w ++ [e]; canvas := canvas w;
               rstate := rstate w; pulled := pulled w; loads := loads w;
               scopes := scopes w |},
            Resolved tt).

Definition console_log {S} (m : LogMsg) : M S unit := emit (EvLog m).

(** [if (canvasRef.current) f(canvasRef.current)]. *)
Definition with_canvas {S} (f : Canvas -> Canvas) : M S unit :=
  fun w => ({| events := events w; canvas := option_map f (canvas w);
               rstate := rstate w; pulled := pulled w; loads := loads w;
               scopes := scopes w |},
            Resolved tt).

Definition set_state {S} (s : S) : M S unit :=
  fun w => ({| events := events w; canvas := canvas w;
               rstate := s; pulled := pulled w; loads := loads w;
               scopes := scopes w |},
            Resolved tt).

(** What [undefined.dispose()] throws. *)
Definition dispose_of_undefined : JsError :=
  TypeError "Cannot read property 'dispose' of undefined".

(** [tensor.dispose()]; on [undefined] the member access throws. *)
Definition dispose {S} (t : option Tensor) : M S unit :=
  match t with
  | Some t => emit (EvDispose t)
  | None => throw dispose_of_undefined
  end.

(** A promise that settles as [r] with no further call. *)
Definition settled {S A} (r : Settled A) : M S A := fun w => (w, r).

(** ** The engine's scopes

    [tf.engine().startScope()] opens a scope, and every tensor created
    while it is the innermost one is tracked in it.  [endScope()] calls
    [dispose] on each tensor the innermost scope tracks, in the order they
    were tracked, and closes it; with no scope open it throws on reading
    [activeScope.track].  Of the engine's tensors only the camera frames are
    represented. *)

(** What [endScope()] throws when no scope is open. *)
Definition no_active_scope : JsError :=
  TypeError "Cannot read property 'track' of null".

Definition start_scope {S} : M S unit :=
  fun w => ({| events := events w ++ [EvStartScope]; canvas := canvas w;
               rstate := rstate w; pulled := pulled w; loads := loads w;
               scopes := [] :: scopes w |},
            Resolved tt).

Definition end_scope {S} : M S unit :=
  fun w =>
    match scopes w with
    | [] =>
        ({| events := events w ++ [EvEndScope]; canvas := canvas w;
            rstate := rstate w; pulled := pulled w; loads := loads w;
            scopes := [] |},
         Rejected no_active_scope)
    | tracked :: outer =>
        ({| events := (events w ++ [EvEndScope]) ++ map EvDispose tracked;
            canvas := canvas w; rstate := rstate w; pulled := pulled w;
            loads := loads w; scopes := outer |},
         Resolved tt)
    end.

(** The scopes once a new tensor has been created. *)
Definition track (t : option Tensor) (l : list (list Tensor)) : list (list Tensor) :=
  match t, l with
  | Some t, tracked :: outer => (tracked ++ [t])%list :: outer
  | _, _ => l
  end.

(** [await model.estimateFaces(t, returnTensors, flipHorizontal)]. *)
Definition await_estimate {S} (m : BlazeFaceModel) (t : Tensor) (rt : bool)
    (flip : option bool) : M S (list NormalizedFace) :=
  fun w =>
    match emit (EvEstimate t rt flip) w with
    | (w', _) => (w', estimateFaces m t rt flip)
    end.

(** ** Drawing, shared by App.tsx and its earlier variant *)

(** One turn of the [for] loop of [fn_drawRect]. *)
Definition draw_one (p : NormalizedFace) (c : Canvas) : Canvas :=
  let start := topLeft p in
  let end_ := bottomRight p in
  let size := (fst end_ - fst start, snd end_ - snd start) in
  let c := set_height (height CAMERA_SIZE) c in
  let c := set_width (width CAMERA_SIZE) c in
  let c := set_strokeStyle "red" c in
  let c := set_lineWidth 6 c in
  strokeRect (fst start) (snd start) (fst size) (snd size) c.

(** [for (let i = 0; i < predictions.length; i++) ...]. *)
Fixpoint draw_all (predictions : list NormalizedFace) (c : Canvas) : Canvas :=
  match predictions with
  | [] => c
  | p :: rest => draw_all rest (draw_one p c)
  end.

(** [fn_drawRect]: nothing happens while the canvas is not mounted. *)
Definition fn_drawRect {S} (predictions : list NormalizedFace) : M S unit :=
  with_canvas (draw_all predictions).

(** The [else] branch of the estimate functions:
    [if (canvasRef.current) ....clearRect(0, 0, CAMERA_SIZE.width, CAMERA_SIZE.height)]. *)
Definition clear_canvas {S} : M S unit :=
  with_canvas (clearRect 0 0 (width CAMERA_SIZE) (height CAMERA_SIZE)).

(** ** Calls whose answer comes from the environment *)

Section Collaborators.
Variable env : Env.
Context {S : Type}.

(** [await Camera.requestCameraPermissionsAsync()], its [status]. *)
Definition requestCameraPermissionsAsync : M S string :=
  emit EvRequestPermission ;; ret (permission_status env).

(** [tf.setBackend(name)]: a promise of a boolean. *)
Definition tf_setBackend (name : string) : M S bool :=
  fun w => (fst (emit (EvSetBackend name) w), backend env).

(** [tf.ready()]. *)
Definition tf_ready : M S unit :=
  fun w => (fst (emit EvTfReady w), ready env).

(** [blazeface.load()]: a new load every time it is called. *)
Definition blazeface_load_call : M S BlazeFaceModel :=
  fun w => ({| events := events w ++ [EvLoad]; canvas := canvas w;
               rstate := rstate w; pulled := pulled w;
               loads := Datatypes.S (loads w);
               scopes := scopes w |},
            blazeface_load env (loads w)).

(** [images.next().value]: the camera creates the tensor on the pull. *)
Definition next_image : M S (option Tensor) :=
  fun w => ({| events := events w ++ [EvNext]; canvas := canvas w;
               rstate := rstate w; pulled := Datatypes.S (pulled w);
               loads := loads w;
               scopes := track (images env (pulled w)) (scopes w) |},
            Resolved (images env (pulled w))).
End Collaborators.

(** ** src/App.tsx *)

Module AppTsx.

Definition permission_message : string :=
  "[-] 카메라의 권한 요청이 승인 되지 않았습니다:".

(** The state the component starts with. *)
Definition initial_state : LoadModel :=
  {| isTfReady := false; blazefaceModel := None |}.

(** [initSetting.isTfReady && initSetting.blazefaceModel && (<TensorCamera
    ... onReady={fn_onReadyTensorCamera} />)]: the camera, and with it the
    loop, exists only when both hold. *)
Definition running (s : LoadModel) : bool :=
  isTfReady s && match blazefaceModel s with Some _ => true | None => false end.

Section Init.
Variable env : Env.

Definition fn_initSetting : M LoadModel unit :=
  (* [기능-1] *)
  status <- requestCameraPermissionsAsync env ;;
  if negb (status =? "granted")%string
  then throw (Error permission_message)
  else
    (* [기능-2] *)
    _isTensorReady <-
      then_catch (tf_setBackend env "rn-webgl")
        (fun _ => start_scope ;;
                  console_log (LogText "[+] Load Tensorflow.js....") ;;
                  ret true)
        (fun error =>
           throw (Error ("[-] Tensorflow Ready Error: " ++ render_error error))) ;;
    (* [기능-3] *)
    _blazeface <-
      then_catch (blazeface_load_call env)
        (fun _blazefaceModel => ret (Some _blazefaceModel))
        (fun error =>
           throw (Error ("[-] Blazeface Model Load Error: " ++ render_error error))) ;;
    (* [기능-4] *)
    set_state {| isTfReady := _isTensorReady; blazefaceModel := _blazeface |}.

(** [useEffect(() => { (async () => { await fn_initSetting(); })() }, [])]. *)
Definition useEffect_init : M LoadModel unit := fn_initSetting.
End Init.

Section Cycle.
Context {S : Type}.
(** The [initSetting] the closures were created with. *)
Variable initSetting : LoadModel.

(** The [.then] callback of [estimateFaces]; its value is what it leaves
    in [_isEstimate]. *)
Definition on_predictions (_predictions : list NormalizedFace) : M S bool :=
  console_log (LogFaces (List.length _predictions)) ;;
  if (0 <? List.length _predictions)%nat
  then fn_drawRect _predictions ;; ret false
  else clear_canvas ;; ret false.

(** The [.catch] callback of [estimateFaces]. *)
Definition on_estimate_error (error : JsError) : M S bool :=
  end_scope ;;
  throw (Error ("blazeface Estimate Error : " ++ render_error error)).

Definition fn_estimateBlazeFace (tensorImage : option Tensor) : M S bool :=
  let _isEstimate := false in
  _isEstimate <-
    match tensorImage, blazefaceModel initSetting with
    | Some t, Some model =>
        then_catch (await_estimate model t false (Some true))
          on_predictions on_estimate_error
    | _, _ => ret _isEstimate
    end ;;
  dispose tensorImage ;;
  ret _isEstimate.

(** [fn_estimateBlazeFace] in the turn of its caller, that is up to its
    first await: with a tensor and a model the call of [estimateFaces] is
    issued; otherwise the function has no await and runs to its end, the
    final [dispose] included. *)
Definition estimate_begin (tensorImage : option Tensor) (w : World S) : World S :=
  match tensorImage, blazefaceModel initSetting with
  | Some t, Some model => fst (emit (EvEstimate t false (Some true)) w)
  | _, _ => fst (dispose tensorImage w)
  end.

(** [fn_estimateBlazeFace] from the settling of that await to its end. *)
Definition estimate_resume (tensorImage : option Tensor) : M S bool :=
  let _isEstimate := false in
  match tensorImage, blazefaceModel initSetting with
  | Some t, Some model =>
      _isEstimate <-
        then_catch (settled (estimateFaces model t false (Some true)))
          on_predictions on_estimate_error ;;
      dispose tensorImage ;;
      ret _isEstimate
  | Some _, None => ret _isEstimate
  | None, _ => throw dispose_of_undefined
  end.

(** [loop] from the pull of the tensor to its end, in one piece; the value
    is the delay handed to [setTimeout]. *)
Definition loop_cycle (_tensorImage : option Tensor) : M S Z :=
  then_catch (fn_estimateBlazeFace _tensorImage)
    (fun isEstimate => console_log (LogIsEstimate isEstimate))
    (fun error => console_log (LogError error)) ;;
  emit (EvSetTimeout 2000) ;;
  ret 2000.

(** [loop] from the settling of its await to its end. *)
Definition loop_resume (_tensorImage : option Tensor) : M S Z :=
  then_catch (estimate_resume _tensorImage)
    (fun isEstimate => console_log (LogIsEstimate isEstimate))
    (fun error => console_log (LogError error)) ;;
  emit (EvSetTimeout 2000) ;;
  ret 2000.

(** The callback given to [setTimeout]. *)
Definition timeout_cb (_tensorImage : option Tensor) : M S unit :=
  dispose _tensorImage ;;
  emit EvRequestAnimationFrame.
End Cycle.

End AppTsx.

(** ** src/unnamed/part_000, the component of lines 1-208 *)

Module Part000.

Definition initial_state : bool := false.

(** [isTfReady ? <TensorCamera ... /> : <></>]. *)
Definition running (isTfReady : bool) : bool := isTfReady.

Section Init.
Variable env : Env.

Definition fn_requestPermisison : M bool unit :=
  status <- requestCameraPermissionsAsync env ;;
  if negb (status =? "granted")%string
  then console_log (LogText "카메라의 권한 요청이 승인 되지 않았습니다.") ;; ret tt
  else ret tt.

Definition fn_tfReady : M bool unit :=
  then_catch (tf_ready env)
    (fun _ => set_state true)
    (fun error => console_log (LogTfReadyError error)).

(** [useEffect]: [await fn_requestPermisison(); await fn_tfReady();]. *)
Definition useEffect_init : M bool unit :=
  fn_requestPermisison ;; fn_tfReady.
End Init.

Section Cycle.
Variable env : Env.
Context {S : Type}.

Definition fn_estimateBlazeFace (tensorImage : option Tensor) : M S bool :=
  match tensorImage with
  | Some t =>
      (* [기능-1] *)
      blaze <- blazeface_load_call env ;;
      (* [기능-2] *)
      predictions <- await_estimate blaze t false None ;;
      console_log (LogFaces (List.length predictions)) ;;
      if (0 <? List.length predictions)%nat
      then fn_drawRect predictions ;; ret true
      else clear_canvas ;; ret false
  | None => ret false
  end.

(** [fn_estimateBlazeFace] in the turn of its caller, that is up to its
    first await: with a tensor, [blazeface.load()] is called. *)
Definition estimate_begin (tensorImage : option Tensor) (w : World S) : World S :=
  match tensorImage with
  | Some t => fst (blazeface_load_call env w)
  | None => w
  end.

(** [fn_estimateBlazeFace] from the settling of that load to its end; the
    load that settles is the last one called. *)
Definition estimate_resume (tensorImage : option Tensor) : M S bool :=
  match tensorImage with
  | Some t =>
      blaze <- (fun w => settled (blazeface_load env (Nat.pred (loads w))) w) ;;
      predictions <- await_estimate blaze t false None ;;
      console_log (LogFaces (List.length predictions)) ;;
      if (0 <? List.length predictions)%nat
      then fn_drawRect predictions ;; ret true
      else clear_canvas ;; ret false
  | None => ret false
  end.

(** [loop] from the pull of the tensor to its end, in one piece. *)
Definition loop_cycle (nextImageTensor : option Tensor) : M S Z :=
  then_catch (fn_estimateBlazeFace nextImageTensor)
    (fun isEstimate => console_log (LogIsEstimate isEstimate))
    (fun error => console_log (LogError error)) ;;
  emit (EvSetTimeout 2000) ;;
  ret 2000.

(** [loop] from the settling of its await to its end. *)
Definition loop_resume (nextImageTensor : option Tensor) : M S Z :=
  then_catch (estimate_resume nextImageTensor)
    (fun isEstimate => console_log (LogIsEstimate isEstimate))
    (fun error => console_log (LogError error)) ;;
  emit (EvSetTimeout 2000) ;;
  ret 2000.

Definition timeout_cb (nextImageTensor : option Tensor) : M S unit :=
  emit EvRequestAnimationFrame.
End Cycle.

End Part000.

(** ** The host: timers, animation frames and the loop

    [fn_onReadyTensorCamera] starts [loop]; from then on the host holds
    what the loop has handed to it: an awaited estimate, a [setTimeout]
    callback with its due time, or a [requestAnimationFrame] callback.  The
    host picks which pending task runs next and how time passes; the effects
    of a task on the world are those of the component's own functions. *)

(** The two components that run a detection loop. *)
Inductive Variant : Type :=
| VApp (initSetting : LoadModel)   (* src/App.tsx, with the state its closures saw *)
| VPart000.                        (* src/unnamed/part_000, lines 1-208 *)

Inductive Task : Type :=
| TInfer (t : option Tensor)               (* loop suspended at its await *)
| TTimeout (due : Z) (t : option Tensor)   (* setTimeout callback, not yet run *)
| TRaf.                                    (* requestAnimationFrame(loop), not yet run *)

(** What the host did and when, for the pacing statements. *)
Inductive HEvent : Type :=
| CycleStart (time : Z)
| CycleEnd (time : Z)
| TimerFired (time : Z)
| RafFired (time : Z).

Record Host (S : Type) : Type := mkHost {
  now : Z;
  tasks : list Task;
  hist : list HEvent;    (* newest first *)
  world : World S
}.

(** What the host is asked to do next. *)
Inductive Choice : Type :=
| Advance (d : Z)     (* let d milliseconds pass *)
| Fire (i : nat).     (* run the i-th pending task *)

Definition remove_nth {A} (i : nat) (l : list A) : list A :=
  firstn i l ++ skipn (Datatypes.S i) l.

Definition in_flight (l : list Task) : nat :=
  List.length (filter (fun k => match k with TInfer _ => true | _ => false end) l).

Section Host.
Variable env : Env.
Context {S : Type}.
Variable v : Variant.

Definition loop_cycle (t : option Tensor) : M S Z :=
  match v with
  | VApp initSetting => AppTsx.loop_cycle initSetting t
  | VPart000 => Part000.loop_cycle env t
  end.

Definition timeout_cb (t : option Tensor) : M S unit :=
  match v with
  | VApp _ => AppTsx.timeout_cb t
  | VPart000 => Part000.timeout_cb t
  end.

Definition estimate_begin (t : option Tensor) (w : World S) : World S :=
  match v with
  | VApp initSetting => AppTsx.estimate_begin initSetting t w
  | VPart000 => Part000.estimate_begin env t w
  end.

Definition loop_resume (t : option Tensor) : M S Z :=
  match v with
  | VApp initSetting => AppTsx.loop_resume initSetting t
  | VPart000 => Part000.loop_resume env t
  end.

(** [loop] up to its await: pull the next tensor and call the estimate
    function, which runs in the same turn up to its own first await. *)
Definition loop_begin (h : Host S) : Host S :=
  let (w', r) := next_image env (world h) in
  match r with
  | Resolved t =>
      {| now := now h; tasks := tasks h ++ [TInfer t];
         hist := CycleStart (now h) :: hist h; world := estimate_begin t w' |}
  | Rejected _ =>
      {| now := now h; tasks := tasks h; hist := hist h; world := w' |}
  end.

(** Run the i-th pending task, if there is one and it is due. *)
Definition fire (i : nat) (h : Host S) : option (Host S) :=
  match nth_error (tasks h) i with
  | None => None
  | Some (TInfer t) =>
      let (w', r) := loop_resume t (world h) in
      Some {| now := now h;
              tasks := remove_nth i (tasks h) ++
                       match r with
                       | Resolved ms => [TTimeout (now h + ms) t]
                       | Rejected _ => []
                       end;
              hist := CycleEnd (now h) :: hist h;
              world := w' |}
  | Some (TTimeout due t) =>
      if due <=? now h then
        let (w', r) := timeout_cb t (world h) in
        Some {| now := now h;
                tasks := remove_nth i (tasks h) ++
                         match r with
                         | Resolved _ => [TRaf]
                         | Rejected _ => []   (* uncaught in the callback *)
                         end;
                hist := TimerFired (now h) :: hist h;
                world := w' |}
      else None
  | Some TRaf =>
      Some (loop_begin {| now := now h; tasks := remove_nth i (tasks h);
                          hist := RafFired (now h) :: hist h;
                          world := world h |})
  end.

Definition choose (c : Choice) (h : Host S) : option (Host S) :=
  match c with
  | Advance d =>
      if 0 <=? d
      then Some {| now := now h + d; tasks := tasks h; hist := hist h;
                   world := world h |}
      else None
  | Fire i => fire i h
  end.

Fixpoint run (sched : list Choice) (h : Host S) : option (Host S) :=
  match sched with
  | [] => Some h
  | c :: rest =>
      match choose c h with
      | Some h' => run rest h'
      | None => None
      end
  end.

(** [fn_onReadyTensorCamera]: define [loop] and call it once. *)
Definition fn_onReadyTensorCamera (w : World S) (t0 : Z) : Host S :=
  loop_begin {| now := t0; tasks := []; hist := []; world := w |}.
End Host.

(** One whole cycle as the host sees it: the estimate settles, the delay
    passes, the timer fires, the frame callback fires. *)
Definition one_cycle : list Choice := [Fire 0; Advance 2000; Fire 0; Fire 0].

Fixpoint cycles (n : nat) : list Choice :=
  match n with
  | O => []
  | Datatypes.S n' => one_cycle ++ cycles n'
  end.



(** ** Counting in the event log *)

Definition is_dispose (t : Tensor) (e : Event) : bool :=
  match e with EvDispose t' => Nat.eqb t t' | _ => false end.

Definition count_dispose (t : Tensor) (l : list Event) : nat :=
  List.length (filter (is_dispose t) l).

(** How many times the innermost open scope tracks a tensor: the number
    of [dispose] calls an [endScope()] makes on it. *)
Definition tracked_in (t : Tensor) (l : list (list Tensor)) : nat :=
  count_dispose t (map EvDispose (hd [] l)).

Definition is_error_log (e : Event) : bool :=
  match e with EvLog (LogError _) => true | _ => false end.

Definition count_error_logs (l : list Event) : nat :=
  List.length (filter is_error_log l).

Definition is_stroke (op : CanvasOp) : bool :=
  match op with StrokeRect _ _ _ _ => true | _ => false end.

(** The [strokeRect] calls a canvas has received, in order. *)
Definition strokes (c : Canvas) : list CanvasOp := filter is_stroke (c_ops c).

(** The rectangle from [topLeft] to [bottomRight], as [strokeRect] takes it. *)
Definition rect_of (p : NormalizedFace) : CanvasOp :=
  StrokeRect (fst (topLeft p)) (snd (topLeft p))
             (fst (bottomRight p) - fst (topLeft p))
             (snd (bottomRight p) - snd (topLeft p)).

(** ** Fixtures for the concrete runs *)

(** The detection of the rendering test: topLeft (10,10), bottomRight (50,60). *)
Definition face_10_10_50_60 : NormalizedFace :=
  {| topLeft := (10, 10); bottomRight := (50, 60) |}.

Definition model_returning (preds : list NormalizedFace) : BlazeFaceModel :=
  {| estimateFaces := fun _ _ _ => Resolved preds |}.

Definition model_rejecting (e : JsError) : BlazeFaceModel :=
  {| estimateFaces := fun _ _ _ => Rejected e |}.

Definition blank_canvas : Canvas :=
  {| c_height := 150; c_width := 300; c_strokeStyle := "#000000";
     c_lineWidth := 1; c_ops := [] |}.

(** A mounted canvas, nothing logged, nothing pulled or loaded yet. *)
Definition fresh_world {S} (s : S) : World S :=
  {| events := []; canvas := Some blank_canvas; rstate := s;
     pulled := 0; loads := 0; scopes := [] |}.

(** A camera that always has a frame, numbered by the pull. *)
Definition env_with (status : string) (b : Settled bool)
    (load : Settled BlazeFaceModel) : Env :=
  {| permission_status := status; backend := b;
     ready := match b with Resolved _ => Resolved tt | Rejected e => Rejected e end;
     blazeface_load := fun _ => load; images := fun k => Some k |}.

(** The world of App.tsx when the camera becomes ready: initialization has
    opened one engine scope. *)
Definition ready_world {S} (s : S) : World S :=
  {| events := []; canvas := Some blank_canvas; rstate := s;
     pulled := 0; loads := 0; scopes := [[]] |}.

Definition loaded (m : BlazeFaceModel) : LoadModel :=
  {| isTfReady := true; blazefaceModel := Some m |}.

(** The state of App.tsx after an initialization whose model rejects every
    estimate. *)
Definition rejecting_init : LoadModel := loaded (model_rejecting (Error "boom")).

(** Two failing cycles in a row of App.tsx, from the world initialization
    leaves: the world in which the second cycle (frame 1) calls the estimate
    function, the first (frame 0) having run to the end of its timer
    callback. *)
Definition second_failure_world : World unit :=
  let env := env_with "granted" (Resolved true)
               (Resolved (model_rejecting (Error "boom"))) in
  let w1 := fst (next_image env (ready_world tt)) in
  let w2 := fst (AppTsx.loop_cycle rejecting_init (Some 0%nat) w1) in
  let w3 := fst (AppTsx.timeout_cb (Some 0%nat) w2) in
  fst (next_image env w3).

(** The calls one detection costs. *)
Definition draw_calls (p : NormalizedFace) : list CanvasOp :=
  [SetHeight (height CAMERA_SIZE); SetWidth (width CAMERA_SIZE);
   SetStrokeStyle "red"; SetLineWidth 6; rect_of p].

(** The two corners a [strokeRect] call spans. *)
Definition corners (op : CanvasOp) : option ((Z * Z) * (Z * Z)) :=
  match op with
  | StrokeRect x y w h => Some ((x, y), (x + w, y + h))
  | _ => None
  end.

(** The calls a successful [fn_initSetting] makes, in order. *)
Definition init_calls : list Event :=
  [EvRequestPermission; EvSetBackend "rn-webgl"; EvStartScope;
   EvLog (LogText "[+] Load Tensorflow.js...."); EvLoad].

(** The camera never runs out of frames. *)
Definition frames (env : Env) : Prop :=
  forall k, exists t, images env k = Some t.

(** Every cycle of the component fails: in App.tsx the model the closures
    hold rejects every estimate; in part_000 every load rejects or answers
    with a model that rejects every estimate. *)
Definition always_fails (env : Env) (v : Variant) : Prop :=
  match v with
  | VApp init =>
      exists m, blazefaceModel init = Some m /\
                forall t, exists e, estimateFaces m t false (Some true) = Rejected e
  | VPart000 =>
      forall k, match blazeface_load env k with
                | Rejected _ => True
                | Resolved m =>
                    forall t, exists e, estimateFaces m t false None = Rejected e
                end
  end.


(** A task that carries a tensor carries a real one. *)
Definition has_frame (k : Task) : bool :=
  match k with
  | TInfer None | TTimeout _ None => false
  | _ => true
  end.


(** A camera whose iterator has ended. *)
Definition env_without_frames : Env :=
  {| permission_status := "granted"; backend := Resolved true;
     ready := Resolved tt;
     blazeface_load := fun _ => Resolved {| estimateFaces := fun _ _ _ => Resolved [] |};
     images := fun _ => None |}.

(** ** src/unnamed/part_000, the component of lines 209-287

    The camera alone: its loop pulls a tensor and reschedules itself, with
    no estimate and no canvas. *)

Module Part000Camera.

(** [const CAMERA_SIZE = { height: 720, width: 540 }]. *)
Definition CAMERA_SIZE : Size := {| height := 720; width := 540 |}.

Section Cycle.
Variable env : Env.
Context {S : Type}.

(** [loop]: it has no await, so it runs from the pull to [setTimeout] at
    once; the value is the delay handed to [setTimeout]. *)
Definition loop : M S Z :=
  nextImageTensor <- next_image env ;;
  emit (EvSetTimeout 1000) ;;
  ret 1000.

(** The callback given to [setTimeout]; it captures no tensor. *)
Definition timeout_cb : M S unit :=
  emit EvRequestAnimationFrame.

(** A call of [loop] by the host. *)
Definition call_loop (h : Host S) : Host S :=
  let (w', r) := loop (world h) in
  {| now := now h;
     tasks := tasks h ++
              match r with
              | Resolved ms => [TTimeout (now h + ms) None]
              | Rejected _ => []
              end;
     hist := CycleEnd (now h) :: CycleStart (now h) :: hist h;
     world := w' |}.

Definition fire (i : nat) (h : Host S) : option (Host S) :=
  match nth_error (tasks h) i with
  | Some (TTimeout due _) =>
      if due <=? now h then
        let (w', r) := timeout_cb (world h) in
        Some {| now := now h;
                tasks := remove_nth i (tasks h) ++
                         match r with
                         | Resolved _ => [TRaf]
                         | Rejected _ => []
                         end;
                hist := TimerFired (now h) :: hist h;
                world := w' |}
      else None
  | Some TRaf =>
      Some (call_loop {| now := now h; tasks := remove_nth i (tasks h);
                         hist := RafFired (now h) :: hist h;
                         world := world h |})
  | Some (TInfer _) => None     (* this loop never awaits *)
  | None => None
  end.

Definition choose (c : Choice) (h : Host S) : option (Host S) :=
  match c with
  | Advance d =>
      if 0 <=? d
      then Some {| now := now h + d; tasks := tasks h; hist := hist h;
                   world := world h |}
      else None
  | Fire i => fire i h
  end.

Fixpoint run (sched : list Choice) (h : Host S) : option (Host S) :=
  match sched with
  | [] => Some h
  | c :: rest =>
      match choose c h with
      | Some h' => run rest h'
      | None => None
      end
  end.

(** [fn_onReadyTensorCamera]: define [loop] and call it once. *)
Definition fn_onReadyTensorCamera (w : World S) (t0 : Z) : Host S :=
  call_loop {| now := t0; tasks := []; hist := []; world := w |}.
End Cycle.


End Part000Camera.

(** ** More counting *)

Definition is_resize (op : CanvasOp) : bool :=
  match op with SetHeight _ | SetWidth _ => true | _ => false end.

(** The resizes a canvas has received. *)
Definition resizes (c : Canvas) : list CanvasOp := filter is_resize (c_ops c).

Definition is_end_scope (e : Event) : bool :=
  match e with EvEndScope => true | _ => false end.

Definition count_end_scope (l : list Event) : nat :=
  List.length (filter is_end_scope l).

Definition is_start_scope (e : Event) : bool :=
  match e with EvStartScope => true | _ => false end.

Definition count_start_scope (l : list Event) : nat :=
  List.length (filter is_start_scope l).

Definition is_cycle_start (e : HEvent) : bool :=
  match e with CycleStart _ => true | _ => false end.

Definition count_starts (l : list HEvent) : nat :=
  List.length (filter is_cycle_start l).

(** The events the camera-only loop is made of. *)
Definition is_pull_or_schedule (e : Event) : bool :=
  match e with
  | EvNext | EvSetTimeout _ | EvRequestAnimationFrame => true
  | _ => false
  end.

(** * Properties *)

(** ** The canvas after [fn_drawRect] *)

Lemma draw_one_ops (p : NormalizedFace) (c : Canvas) :
  c_ops (draw_one p c) = (c_ops c ++ draw_calls p)%list.
Proof.
  unfold draw_one, draw_calls, rect_of, strokeRect, push_op; simpl.
  repeat rewrite <- app_assoc. reflexivity.
Qed.

Lemma draw_all_ops (ps : list NormalizedFace) :
  forall c, c_ops (draw_all ps c) = (c_ops c ++ flat_map draw_calls ps)%list.
Proof.
  induction ps as [|p ps IH]; intro c; simpl draw_all.
  - simpl. now rewrite app_nil_r.
  - rewrite IH, draw_one_ops. cbn [flat_map].
    now rewrite <- !app_assoc.
Qed.

Lemma strokes_draw_calls (ps : list NormalizedFace) :
  filter is_stroke (flat_map draw_calls ps) = map rect_of ps.
Proof.
  induction ps as [|p ps IH]; [reflexivity|].
  cbn [flat_map map]. rewrite filter_app, IH. reflexivity.
Qed.

Lemma draw_all_strokes (ps : list NormalizedFace) (c : Canvas) :
  strokes (draw_all ps c) = (strokes c ++ map rect_of ps)%list.
Proof.
  unfold strokes. now rewrite draw_all_ops, filter_app, strokes_draw_calls.
Qed.

Lemma draw_all_size (ps : list NormalizedFace) :
  ps <> [] ->
  forall c, c_height (draw_all ps c) = height CAMERA_SIZE /\
            c_width (draw_all ps c) = width CAMERA_SIZE /\
            c_strokeStyle (draw_all ps c) = "red" /\
            c_lineWidth (draw_all ps c) = 6.
Proof.
  induction ps as [|p ps IH]; [congruence|]. intros _ c.
  destruct ps as [|q ps].
  - simpl. auto.
  - simpl draw_all. apply (IH ltac:(discriminate) (draw_one p c)).
Qed.

Lemma corners_rect_of (p : NormalizedFace) :
  corners (rect_of p) = Some (topLeft p, bottomRight p).
Proof.
  destruct p as [[x1 y1] [x2 y2]]; simpl.
  repeat f_equal; lia.
Qed.

(** [fn_drawRect] on an empty list issues no call at all: clearing on an
    empty result is the work of the length test in the estimate functions. *)
Lemma fn_drawRect_nil {S} (w : World S) :
  canvas (fst (fn_drawRect [] w)) = canvas w.
Proof.
  unfold fn_drawRect, with_canvas; simpl. now destruct (canvas w).
Qed.

(** ** What one call of the estimate functions does *)

Lemma app_estimate_resolved {S} (w : World S) init m t preds :
  blazefaceModel init = Some m ->
  estimateFaces m t false (Some true) = Resolved preds ->
  AppTsx.fn_estimateBlazeFace init (Some t) w =
    ({| events := (events w ++ [EvEstimate t false (Some true)]
                            ++ [EvLog (LogFaces (List.length preds))]
                            ++ [EvDispose t])%list;
        canvas := option_map
                    (if (0 <? List.length preds)%nat then draw_all preds
                     else clearRect 0 0 (width CAMERA_SIZE) (height CAMERA_SIZE))
                    (canvas w);
        rstate := rstate w; pulled := pulled w; loads := loads w;
        scopes := scopes w |},
     Resolved false).
Proof.
  intros Hm He.
  unfold AppTsx.fn_estimateBlazeFace, then_catch, bind, await_estimate,
    AppTsx.on_predictions, bind, console_log, emit, fn_drawRect, clear_canvas,
    with_canvas, dispose, ret.
  rewrite Hm; simpl. rewrite He; simpl.
  destruct (0 <? List.length preds)%nat; simpl;
    repeat rewrite <- app_assoc; reflexivity.
Qed.

(** When the model rejects, the [.catch] callback calls [endScope()]:
    with a scope open the engine disposes what that scope tracks and the
    callback throws its own Error; with none open [endScope()] itself
    throws.  Either way the final [dispose] of the function is skipped. *)
Lemma app_estimate_rejected {S} (w : World S) init m t e :
  blazefaceModel init = Some m ->
  estimateFaces m t false (Some true) = Rejected e ->
  AppTsx.fn_estimateBlazeFace init (Some t) w =
    ({| events := (((events w ++ [EvEstimate t false (Some true)]) ++ [EvEndScope])
                   ++ map EvDispose (hd [] (scopes w)))%list;
        canvas := canvas w;
        rstate := rstate w; pulled := pulled w; loads := loads w;
        scopes := tl (scopes w) |},
     Rejected match scopes w with
              | [] => no_active_scope
              | _ :: _ => Error ("blazeface Estimate Error : " ++ render_error e)
              end).
Proof.
  intros Hm He.
  unfold AppTsx.fn_estimateBlazeFace, then_catch, bind, await_estimate,
    AppTsx.on_estimate_error, bind, end_scope, emit, throw.
  rewrite Hm; simpl. rewrite He; simpl.
  destruct (scopes w) as [|tracked outer]; simpl;
    [rewrite app_nil_r|]; reflexivity.
Qed.

Lemma app_estimate_no_model {S} (w : World S) init t :
  blazefaceModel init = None ->
  AppTsx.fn_estimateBlazeFace init (Some t) w =
    ({| events := (events w ++ [EvDispose t])%list; canvas := canvas w;
        rstate := rstate w; pulled := pulled w; loads := loads w;
        scopes := scopes w |},
     Resolved false).
Proof.
  intros Hm.
  unfold AppTsx.fn_estimateBlazeFace, bind, dispose, emit, ret.
  rewrite Hm; reflexivity.
Qed.

(** With no tensor the final [tensorImage.dispose()] throws. *)
Lemma app_estimate_undefined {S} (w : World S) init :
  AppTsx.fn_estimateBlazeFace init None w = (w, Rejected dispose_of_undefined).
Proof. reflexivity. Qed.

Lemma part000_estimate_resolved env {S} (w : World S) m t preds :
  blazeface_load env (loads w) = Resolved m ->
  estimateFaces m t false None = Resolved preds ->
  Part000.fn_estimateBlazeFace env (Some t) w =
    ({| events := (events w ++ [EvLoad] ++ [EvEstimate t false None]
                            ++ [EvLog (LogFaces (List.length preds))])%list;
        canvas := option_map
                    (if (0 <? List.length preds)%nat then draw_all preds
                     else clearRect 0 0 (width CAMERA_SIZE) (height CAMERA_SIZE))
                    (canvas w);
        rstate := rstate w; pulled := pulled w; loads := Datatypes.S (loads w);
        scopes := scopes w |},
     Resolved (0 <? List.length preds)%nat).
Proof.
  intros Hl He.
  unfold Part000.fn_estimateBlazeFace, bind, blazeface_load_call, await_estimate,
    console_log, emit, fn_drawRect, clear_canvas, with_canvas, ret.
  rewrite Hl; simpl. rewrite He; simpl.
  destruct (0 <? List.length preds)%nat; simpl;
    repeat rewrite <- app_assoc; reflexivity.
Qed.

Lemma part000_estimate_rejected env {S} (w : World S) m t e :
  blazeface_load env (loads w) = Resolved m ->
  estimateFaces m t false None = Rejected e ->
  Part000.fn_estimateBlazeFace env (Some t) w =
    ({| events := (events w ++ [EvLoad] ++ [EvEstimate t false None])%list;
        canvas := canvas w;
        rstate := rstate w; pulled := pulled w; loads := Datatypes.S (loads w);
        scopes := scopes w |},
     Rejected e).
Proof.
  intros Hl He.
  unfold Part000.fn_estimateBlazeFace, bind, blazeface_load_call, await_estimate, emit.
  rewrite Hl; simpl. rewrite He; simpl.
  repeat rewrite <- app_assoc; reflexivity.
Qed.

Lemma part000_estimate_load_rejected env {S} (w : World S) t e :
  blazeface_load env (loads w) = Rejected e ->
  Part000.fn_estimateBlazeFace env (Some t) w =
    ({| events := (events w ++ [EvLoad])%list; canvas := canvas w;
        rstate := rstate w; pulled := pulled w; loads := Datatypes.S (loads w);
        scopes := scopes w |},
     Rejected e).
Proof.
  intros Hl.
  unfold Part000.fn_estimateBlazeFace, bind, blazeface_load_call.
  rewrite Hl; reflexivity.
Qed.

Lemma part000_estimate_loads env {S} (w : World S) (t : Tensor) :
  loads (fst (Part000.fn_estimateBlazeFace env (Some t) w)) = Datatypes.S (loads w).
Proof.
  unfold Part000.fn_estimateBlazeFace, bind, blazeface_load_call.
  destruct (blazeface_load env (loads w)) as [m|e]; [|reflexivity].
  unfold await_estimate; simpl.
  destruct (estimateFaces m t false None) as [ps|e]; [|reflexivity].
  simpl. destruct (0 <? List.length ps)%nat; reflexivity.
Qed.

(** Two calls in a row load twice. *)
Lemma part000_two_calls_two_loads env {S} (w : World S) (t1 t2 : Tensor) :
  loads (fst (Part000.fn_estimateBlazeFace env (Some t2)
                (fst (Part000.fn_estimateBlazeFace env (Some t1) w))))
  = Datatypes.S (Datatypes.S (loads w)).
Proof. now rewrite !part000_estimate_loads. Qed.

(** ** Rendering *)

(** C5: rendering an empty detection list is an explicit clear.  In both
    components, a cycle whose model answers with the empty list leaves the
    canvas in exactly the state the clear statement
    [clearRect(0, 0, CAMERA_SIZE.width, CAMERA_SIZE.height)] leaves it in,
    mounted or not. *)
Theorem C5_render_empty_equals_clear :
  forall (env : Env) (S : Type) (w : World S) (init : LoadModel)
         (m m' : BlazeFaceModel) (t : Tensor),
    blazefaceModel init = Some m ->
    estimateFaces m t false (Some true) = Resolved [] ->
    blazeface_load env (loads w) = Resolved m' ->
    estimateFaces m' t false None = Resolved [] ->
    canvas (fst (AppTsx.on_predictions [] w)) = canvas (fst (clear_canvas w)) /\
    canvas (fst (AppTsx.fn_estimateBlazeFace init (Some t) w))
      = canvas (fst (clear_canvas w)) /\
    canvas (fst (Part000.fn_estimateBlazeFace env (Some t) w))
      = canvas (fst (clear_canvas w)).
Proof.
  intros env S w init m m' t Hm He Hl He'.
  rewrite (app_estimate_resolved w init t Hm He).
  rewrite (part000_estimate_resolved env w t Hl He').
  repeat split.
Qed.

Lemma C5_render_empty_equals_clear_witness :
  let env := env_with "granted" (Resolved true) (Resolved (model_returning [])) in
  let w := fresh_world tt in
  canvas (fst (AppTsx.fn_estimateBlazeFace (loaded (model_returning [])) (Some 0%nat) w))
    = canvas (fst (clear_canvas w)) /\
  canvas (fst (Part000.fn_estimateBlazeFace env (Some 0%nat) w))
    = canvas (fst (clear_canvas w)).
Proof.
  intros env w.
  apply (C5_render_empty_equals_clear env w (loaded (model_returning []))
           (m := model_returning []) (m' := model_returning []) 0%nat);
    reflexivity.
Defined.

(** C6: for the single detection topLeft (10,10), bottomRight (50,60) the
    renderer sets the canvas to height 480 and width 320, then the stroke
    style, and only then issues one [strokeRect(10, 10, 40, 50)], the
    rectangle whose corners are (10,10) and (50,60).  In general the
    [strokeRect] calls added are the detections' rectangles in list order,
    each issued after the same resize and the same style ("red", width 6). *)
Theorem C6_render_one_rectangle :
  forall (S : Type) (w : World S) (c : Canvas),
    canvas w = Some c ->
    (exists c1,
        canvas (fst (fn_drawRect [face_10_10_50_60] w)) = Some c1 /\
        c_ops c1 = (c_ops c ++ [SetHeight 480; SetWidth 320; SetStrokeStyle "red";
                                SetLineWidth 6; StrokeRect 10 10 40 50])%list /\
        strokes c1 = (strokes c ++ [StrokeRect 10 10 40 50])%list /\
        corners (StrokeRect 10 10 40 50) = Some ((10, 10), (50, 60)) /\
        c_height c1 = height CAMERA_SIZE /\ c_width c1 = width CAMERA_SIZE) /\
    (forall ps : list NormalizedFace,
        exists c2,
          canvas (fst (fn_drawRect ps w)) = Some c2 /\
          c_ops c2 = (c_ops c ++ flat_map draw_calls ps)%list /\
          strokes c2 = (strokes c ++ map rect_of ps)%list /\
          map corners (map rect_of ps)
            = map (fun p => Some (topLeft p, bottomRight p)) ps).
Proof.
  intros S w c Hc. split.
  - exists (draw_all [face_10_10_50_60] c).
    unfold fn_drawRect, with_canvas; simpl fst; simpl canvas. rewrite Hc.
    split; [reflexivity|].
    split; [rewrite draw_all_ops; reflexivity|].
    split; [rewrite draw_all_strokes; reflexivity|].
    repeat split.
  - intro ps. exists (draw_all ps c).
    unfold fn_drawRect, with_canvas; simpl fst; simpl canvas. rewrite Hc.
    split; [reflexivity|].
    split; [apply draw_all_ops|].
    split; [apply draw_all_strokes|].
    rewrite map_map. apply map_ext. intro p. apply corners_rect_of.
Qed.

Lemma C6_render_one_rectangle_witness :
  exists c1,
    canvas (fst (fn_drawRect [face_10_10_50_60] (fresh_world tt))) = Some c1 /\
    c_ops c1 = [SetHeight 480; SetWidth 320; SetStrokeStyle "red";
                SetLineWidth 6; StrokeRect 10 10 40 50].
Proof.
  destruct (C6_render_one_rectangle (fresh_world tt) (c := blank_canvas) eq_refl)
    as [[c1 [H1 [H2 _]]] _].
  exists c1. split; [exact H1 | exact H2].
Defined.

(** C7: when the model finds nothing, its answer is the empty list, and on
    that answer the cycle issues the one [clearRect] over the whole camera
    size, adds no [strokeRect], and (in both components) resolves to false. *)
Theorem C7_empty_result_clears :
  forall (env : Env) (S : Type) (w : World S) (init : LoadModel)
         (m m' : BlazeFaceModel) (t : Tensor),
    blazefaceModel init = Some m ->
    estimateFaces m t false (Some true) = Resolved [] ->
    blazeface_load env (loads w) = Resolved m' ->
    estimateFaces m' t false None = Resolved [] ->
    let ra := AppTsx.fn_estimateBlazeFace init (Some t) w in
    let rp := Part000.fn_estimateBlazeFace env (Some t) w in
    canvas (fst ra) = option_map (clearRect 0 0 320 480) (canvas w) /\
    canvas (fst rp) = option_map (clearRect 0 0 320 480) (canvas w) /\
    snd ra = Resolved false /\ snd rp = Resolved false /\
    (forall c, canvas w = Some c ->
       exists c', canvas (fst ra) = Some c' /\ canvas (fst rp) = Some c' /\
                  c_ops c' = (c_ops c ++ [ClearRect 0 0 320 480])%list /\
                  strokes c' = strokes c).
Proof.
  intros env S w init m m' t Hm He Hl He' ra rp. subst ra rp.
  rewrite (app_estimate_resolved w init t Hm He).
  rewrite (part000_estimate_resolved env w t Hl He').
  simpl. repeat split.
  intros c Hc. rewrite Hc. simpl.
  exists (clearRect 0 0 320 480 c). repeat split.
  unfold strokes, clearRect, push_op; simpl.
  rewrite filter_app; simpl. apply app_nil_r.
Qed.

Lemma C7_empty_result_clears_witness :
  canvas (fst (AppTsx.fn_estimateBlazeFace (loaded (model_returning []))
                 (Some 0%nat) (fresh_world tt)))
    = option_map (clearRect 0 0 320 480) (Some blank_canvas).
Proof.
  exact (proj1 (C7_empty_result_clears
                  (env_with "granted" (Resolved true) (Resolved (model_returning [])))
                  (fresh_world tt) (loaded (model_returning []))
                  (m := model_returning []) (m' := model_returning []) 0%nat
                  eq_refl eq_refl eq_refl eq_refl)).
Defined.

(** ** The estimate function of App.tsx *)

(** C8, as the code has it: called while [initSetting.blazefaceModel] is
    still null, the estimate function raises nothing.  It skips the model
    and the canvas, disposes the tensor and resolves to false, the value it
    also resolves to after a cycle with no detection. *)
Theorem C8_estimate_without_model_resolves_false :
  forall (S : Type) (w : World S) (init : LoadModel) (t : Tensor),
    blazefaceModel init = None ->
    AppTsx.fn_estimateBlazeFace init (Some t) w =
      ({| events := (events w ++ [EvDispose t])%list; canvas := canvas w;
          rstate := rstate w; pulled := pulled w; loads := loads w;
          scopes := scopes w |},
       Resolved false) /\
    snd (AppTsx.fn_estimateBlazeFace init (Some t) w)
      = snd (AppTsx.fn_estimateBlazeFace (loaded (model_returning [])) (Some t) w).
Proof.
  intros S w init t Hm. split.
  - now apply app_estimate_no_model.
  - rewrite (app_estimate_no_model w init t Hm).
    now rewrite (@app_estimate_resolved S w (loaded (model_returning []))
                   (model_returning []) t [] eq_refl eq_refl).
Qed.

Lemma C8_estimate_without_model_resolves_false_witness :
  snd (AppTsx.fn_estimateBlazeFace AppTsx.initial_state (Some 0%nat) (fresh_world tt))
    = snd (AppTsx.fn_estimateBlazeFace (loaded (model_returning [])) (Some 0%nat)
             (fresh_world tt)).
Proof.
  exact (proj2 (C8_estimate_without_model_resolves_false
                  (fresh_world tt) AppTsx.initial_state 0%nat eq_refl)).
Defined.

(** C8 as the spec words it, a rejection when the model is not loaded,
    fails: with the initial state (model null) the call resolves. *)
Lemma C8_not_ready_is_not_an_error :
  snd (AppTsx.fn_estimateBlazeFace AppTsx.initial_state (Some 0%nat) (fresh_world tt))
    = Resolved false /\
  ~ (exists e, snd (AppTsx.fn_estimateBlazeFace AppTsx.initial_state (Some 0%nat)
                      (fresh_world tt)) = Rejected e).
Proof.
  split; [reflexivity|]. intros [e He]. discriminate He.
Qed.

(** C9: whatever tensor it is given and whatever list the model answers
    with, empty or not, and also when there is no model, the estimate
    function of App.tsx resolves to false. *)
Theorem C9_app_estimate_always_false :
  forall (S : Type) (w : World S) (init : LoadModel) (t : Tensor),
    (forall m, blazefaceModel init = Some m ->
               exists preds, estimateFaces m t false (Some true) = Resolved preds) ->
    snd (AppTsx.fn_estimateBlazeFace init (Some t) w) = Resolved false.
Proof.
  intros S w init t H.
  destruct (blazefaceModel init) as [m|] eqn:Hm.
  - destruct (H m eq_refl) as [preds He].
    now rewrite (app_estimate_resolved w init t Hm He).
  - now rewrite (app_estimate_no_model w init t Hm).
Qed.

Lemma C9_app_estimate_always_false_witness :
  snd (AppTsx.fn_estimateBlazeFace (loaded (model_returning [face_10_10_50_60]))
         (Some 0%nat) (fresh_world tt)) = Resolved false /\
  option_map strokes
    (canvas (fst (AppTsx.fn_estimateBlazeFace
                    (loaded (model_returning [face_10_10_50_60]))
                    (Some 0%nat) (fresh_world tt))))
    = Some [StrokeRect 10 10 40 50].
Proof.
  split; [|reflexivity].
  apply (C9_app_estimate_always_false (fresh_world tt)
           (loaded (model_returning [face_10_10_50_60])) 0%nat).
  intros m Hm. exists [face_10_10_50_60].
  injection Hm as <-. reflexivity.
Defined.

(** ** The estimate function of part_000 *)

(** C10: in part_000 every call with a tensor starts with its own
    [blazeface.load()] (one more load per call, logged before the estimate)
    and estimates with the handle that very load answered with.  Neither
    the React state, nor the log, nor what earlier loads answered has any
    influence on the outcome. *)
Theorem C10_part000_loads_on_every_call :
  forall (env : Env) (S : Type) (w : World S) (t : Tensor),
    let r := Part000.fn_estimateBlazeFace env (Some t) w in
    loads (fst r) = Datatypes.S (loads w) /\
    (exists rest, events (fst r) = (events w ++ EvLoad :: rest)%list /\
                  ~ In EvLoad rest) /\
    match blazeface_load env (loads w) with
    | Resolved m =>
        (exists rest, events (fst r)
                      = (events w ++ EvLoad :: EvEstimate t false None :: rest)%list) /\
        snd r = match estimateFaces m t false None with
                | Resolved ps => Resolved (0 <? List.length ps)%nat
                | Rejected e => Rejected e
                end
    | Rejected e =>
        events (fst r) = (events w ++ [EvLoad])%list /\ snd r = Rejected e
    end /\
    (forall (env' : Env) (S' : Type) (w' : World S'),
        blazeface_load env' (loads w') = blazeface_load env (loads w) ->
        canvas w' = canvas w ->
        snd (Part000.fn_estimateBlazeFace env' (Some t) w') = snd r /\
        canvas (fst (Part000.fn_estimateBlazeFace env' (Some t) w')) = canvas (fst r)).
Proof.
  intros env S w t r. subst r.
  destruct (blazeface_load env (loads w)) as [m|e] eqn:Hl.
  - destruct (estimateFaces m t false None) as [ps|e] eqn:He.
    + rewrite (part000_estimate_resolved env w t Hl He).
      cbn [fst snd events loads canvas].
      split; [reflexivity|]. split.
      { eexists. split; [reflexivity|]. simpl. intuition discriminate. }
      split.
      { split; [eexists; reflexivity | reflexivity]. }
      intros env' S' w' Hl' Hc.
      rewrite (part000_estimate_resolved env' w' t Hl' He).
      cbn [fst snd canvas].
      now rewrite Hc.
    + rewrite (part000_estimate_rejected env w t Hl He).
      cbn [fst snd events loads canvas].
      split; [reflexivity|]. split.
      { eexists. split; [reflexivity|]. simpl. intuition discriminate. }
      split.
      { split; [eexists; reflexivity | reflexivity]. }
      intros env' S' w' Hl' Hc.
      rewrite (part000_estimate_rejected env' w' t Hl' He).
      cbn [fst snd canvas].
      now rewrite Hc.
  - rewrite (part000_estimate_load_rejected env w t Hl).
    cbn [fst snd events loads canvas].
    split; [reflexivity|]. split.
    { exists []. split; [reflexivity | intros []]. }
    split; [split; reflexivity|].
    intros env' S' w' Hl' Hc.
    rewrite (part000_estimate_load_rejected env' w' t Hl').
    cbn [fst snd canvas].
    now rewrite Hc.
Qed.


(** ** One cycle of the loop *)

(** However the estimate settles, the rest of [loop] runs: the outcome is
    logged and [setTimeout(..., 2000)] is reached. *)
Lemma app_loop_cycle_unfold {S} (w : World S) init t :
  AppTsx.loop_cycle init t w =
    match AppTsx.fn_estimateBlazeFace init t w with
    | (w1, Resolved b) =>
        ({| events := (events w1 ++ [EvLog (LogIsEstimate b)] ++ [EvSetTimeout 2000])%list;
            canvas := canvas w1; rstate := rstate w1;
            pulled := pulled w1; loads := loads w1;
            scopes := scopes w1 |}, Resolved 2000)
    | (w1, Rejected e) =>
        ({| events := (events w1 ++ [EvLog (LogError e)] ++ [EvSetTimeout 2000])%list;
            canvas := canvas w1; rstate := rstate w1;
            pulled := pulled w1; loads := loads w1;
            scopes := scopes w1 |}, Resolved 2000)
    end.
Proof.
  unfold AppTsx.loop_cycle, then_catch, bind at 1 2.
  destruct (AppTsx.fn_estimateBlazeFace init t w) as [w1 [b|e]];
    unfold bind, console_log, emit, ret; simpl;
    rewrite <- app_assoc; reflexivity.
Qed.

Lemma part000_loop_cycle_unfold env {S} (w : World S) t :
  Part000.loop_cycle env t w =
    match Part000.fn_estimateBlazeFace env t w with
    | (w1, Resolved b) =>
        ({| events := (events w1 ++ [EvLog (LogIsEstimate b)] ++ [EvSetTimeout 2000])%list;
            canvas := canvas w1; rstate := rstate w1;
            pulled := pulled w1; loads := loads w1;
            scopes := scopes w1 |}, Resolved 2000)
    | (w1, Rejected e) =>
        ({| events := (events w1 ++ [EvLog (LogError e)] ++ [EvSetTimeout 2000])%list;
            canvas := canvas w1; rstate := rstate w1;
            pulled := pulled w1; loads := loads w1;
            scopes := scopes w1 |}, Resolved 2000)
    end.
Proof.
  unfold Part000.loop_cycle, then_catch, bind at 1 2.
  destruct (Part000.fn_estimateBlazeFace env t w) as [w1 [b|e]];
    unfold bind, console_log, emit, ret; simpl;
    rewrite <- app_assoc; reflexivity.
Qed.

Lemma loop_cycle_resolves env {S} (v : Variant) (t : option Tensor) (w : World S) :
  snd (loop_cycle env v t w) = Resolved 2000.
Proof.
  destruct v as [init|]; unfold loop_cycle.
  - rewrite app_loop_cycle_unfold.
    now destruct (AppTsx.fn_estimateBlazeFace init t w) as [w1 [b|e]].
  - rewrite part000_loop_cycle_unfold.
    now destruct (Part000.fn_estimateBlazeFace env t w) as [w1 [b|e]].
Qed.

Lemma count_dispose_app (t : Tensor) (l1 l2 : list Event) :
  count_dispose t (l1 ++ l2) = (count_dispose t l1 + count_dispose t l2)%nat.
Proof. unfold count_dispose. now rewrite filter_app, length_app. Qed.

Lemma count_dispose_snoc (t : Tensor) (l : list Event) (e : Event) :
  count_dispose t (l ++ [e])
  = (count_dispose t l + if is_dispose t e then 1 else 0)%nat.
Proof.
  rewrite count_dispose_app. f_equal.
  unfold count_dispose; simpl. now destruct (is_dispose t e).
Qed.

Lemma count_error_logs_app (l1 l2 : list Event) :
  count_error_logs (l1 ++ l2) = (count_error_logs l1 + count_error_logs l2)%nat.
Proof. unfold count_error_logs. now rewrite filter_app, length_app. Qed.

Lemma count_dispose_single (t : Tensor) (e : Event) :
  count_dispose t [e] = if is_dispose t e then 1%nat else 0%nat.
Proof. unfold count_dispose; simpl. now destruct (is_dispose t e). Qed.

Lemma count_error_logs_single (e : Event) :
  count_error_logs [e] = if is_error_log e then 1%nat else 0%nat.
Proof. unfold count_error_logs; simpl. now destruct (is_error_log e). Qed.

Lemma count_error_logs_disposes (l : list Tensor) :
  count_error_logs (map EvDispose l) = 0%nat.
Proof. induction l as [|x l IH]; [reflexivity | exact IH]. Qed.

(** Split a count over an event log into the counts of its pieces. *)
Ltac count_events :=
  repeat rewrite count_dispose_app;
  repeat rewrite count_error_logs_app;
  repeat rewrite count_dispose_single;
  repeat rewrite count_error_logs_single;
  repeat rewrite count_error_logs_disposes;
  cbn [is_dispose is_error_log];
  repeat rewrite Nat.eqb_refl.

(** On the paths where the model answers, App.tsx calls [dispose] on the
    tensor in the estimate function and once more in the timer callback. *)
Lemma app_cycle_disposes_when_resolved {S} (w : World S) init m t preds :
  blazefaceModel init = Some m ->
  estimateFaces m t false (Some true) = Resolved preds ->
  let w1 := fst (AppTsx.loop_cycle init (Some t) w) in
  count_dispose t (events w1) = Datatypes.S (count_dispose t (events w)) /\
  count_dispose t (events (fst (AppTsx.timeout_cb (Some t) w1)))
    = Datatypes.S (Datatypes.S (count_dispose t (events w))).
Proof.
  intros Hm He w1. subst w1.
  rewrite app_loop_cycle_unfold, (app_estimate_resolved w init t Hm He).
  unfold AppTsx.timeout_cb, bind, dispose, emit.
  cbn [fst snd events]. rewrite !app_assoc, !count_dispose_snoc.
  cbn [is_dispose]. rewrite Nat.eqb_refl. lia.
Qed.

(** The component of part_000 never calls [dispose]: whatever the cycle's
    outcome, neither [loop] nor its timer callback releases the tensor. *)
Lemma part000_cycle_never_disposes env {S} (w : World S) (t t' : Tensor) :
  count_dispose t'
    (events (fst (Part000.timeout_cb (Some t)
                    (fst (Part000.loop_cycle env (Some t) w)))))
  = count_dispose t' (events w).
Proof.
  rewrite part000_loop_cycle_unfold.
  unfold Part000.timeout_cb, emit.
  destruct (blazeface_load env (loads w)) as [m|e] eqn:Hl.
  - destruct (estimateFaces m t false None) as [ps|e] eqn:He.
    + rewrite (part000_estimate_resolved env w t Hl He). cbn [fst events].
      rewrite !app_assoc, !count_dispose_snoc. cbn [is_dispose]. lia.
    + rewrite (part000_estimate_rejected env w t Hl He). cbn [fst events].
      rewrite !app_assoc, !count_dispose_snoc. cbn [is_dispose]. lia.
  - rewrite (part000_estimate_load_rejected env w t Hl). cbn [fst events].
    rewrite !app_assoc, !count_dispose_snoc. cbn [is_dispose]. lia.
Qed.

(** In App.tsx, when the model rejects while a scope is open, it is the
    engine's [endScope()] that calls [dispose] on the frame, if that scope
    tracks it, and the scope is closed from then on; the timer callback
    calls [dispose] once more. *)
Lemma app_reject_with_scope_open {S} (w : World S) init m t e tracked outer :
  blazefaceModel init = Some m ->
  estimateFaces m t false (Some true) = Rejected e ->
  scopes w = tracked :: outer ->
  let r := AppTsx.loop_cycle init (Some t) w in
  snd (AppTsx.fn_estimateBlazeFace init (Some t) w)
    = Rejected (Error ("blazeface Estimate Error : " ++ render_error e)) /\
  scopes (fst r) = outer /\
  count_dispose t (events (fst r))
    = (count_dispose t (events w) + tracked_in t (scopes w))%nat.
Proof.
  intros Hm He Hs r. subst r.
  rewrite app_loop_cycle_unfold, (app_estimate_rejected w init t Hm He).
  unfold tracked_in. rewrite Hs. cbn [fst snd events scopes hd tl].
  repeat split. count_events. lia.
Qed.

(** C1, at the path where the code departs from it: when [estimateFaces]
    rejects while no engine scope is open (as from the second failure on,
    the first having closed the scope of initialization), [endScope()]
    throws a TypeError in the [.catch] callback and the estimate function
    of App.tsx rejects before its [tensorImage.dispose()]; [loop] catches,
    logs and reaches [setTimeout] with no [dispose] called on the tensor,
    and the first [dispose] of that tensor is the one in the timer
    callback, two seconds later. *)
Theorem C1_reject_path_skips_dispose :
  forall (S : Type) (w : World S) (init : LoadModel) (m : BlazeFaceModel)
         (t : Tensor) (e : JsError),
    blazefaceModel init = Some m ->
    estimateFaces m t false (Some true) = Rejected e ->
    scopes w = [] ->
    let r := AppTsx.loop_cycle init (Some t) w in
    (exists msg,
        snd (AppTsx.fn_estimateBlazeFace init (Some t) w)
        = Rejected (TypeError msg)) /\
    snd r = Resolved 2000 /\
    count_dispose t (events (fst r)) = count_dispose t (events w) /\
    count_dispose t (events (fst (AppTsx.timeout_cb (Some t) (fst r))))
      = Datatypes.S (count_dispose t (events w)).
Proof.
  intros S w init m t e Hm He Hs r. subst r.
  rewrite app_loop_cycle_unfold, (app_estimate_rejected w init t Hm He).
  rewrite Hs. cbn [hd tl map].
  unfold AppTsx.timeout_cb, bind, dispose, emit.
  cbn [fst snd events]. rewrite app_nil_r, !app_assoc, !count_dispose_snoc.
  cbn [is_dispose]. rewrite Nat.eqb_refl.
  split; [unfold no_active_scope; eauto|]. repeat split; lia.
Qed.

Lemma C1_reject_path_skips_dispose_witness :
  let r := AppTsx.loop_cycle rejecting_init (Some 1%nat) second_failure_world in
  scopes second_failure_world = [] /\
  snd r = Resolved 2000 /\
  count_dispose 1%nat (events (fst r)) = 0%nat /\
  count_dispose 1%nat (events (fst (AppTsx.timeout_cb (Some 1%nat) (fst r)))) = 1%nat.
Proof.
  destruct (C1_reject_path_skips_dispose second_failure_world rejecting_init
              (m := model_rejecting (Error "boom")) 1%nat
              (e := Error "boom") eq_refl eq_refl eq_refl) as [_ [H1 [H2 H3]]].
  split; [reflexivity|]. split; [exact H1|]. split; [exact H2 | exact H3].
Defined.

(** ** Initialization *)

Lemma app_init_denied env (w : World LoadModel) :
  permission_status env <> "granted" ->
  AppTsx.fn_initSetting env w =
    ({| events := (events w ++ [EvRequestPermission])%list; canvas := canvas w;
        rstate := rstate w; pulled := pulled w; loads := loads w;
        scopes := scopes w |},
     Rejected (Error AppTsx.permission_message)).
Proof.
  intros Hs. apply String.eqb_neq in Hs.
  unfold AppTsx.fn_initSetting, bind, requestCameraPermissionsAsync, bind, emit, ret.
  simpl. rewrite Hs. reflexivity.
Qed.

Lemma app_init_backend_rejected env (w : World LoadModel) (e : JsError) :
  permission_status env = "granted" ->
  backend env = Rejected e ->
  AppTsx.fn_initSetting env w =
    ({| events := (events w ++ firstn 2 init_calls)%list; canvas := canvas w;
        rstate := rstate w; pulled := pulled w; loads := loads w;
        scopes := scopes w |},
     Rejected (Error ("[-] Tensorflow Ready Error: " ++ render_error e))).
Proof.
  intros Hs Hb.
  unfold AppTsx.fn_initSetting, bind, requestCameraPermissionsAsync, bind, emit, ret.
  simpl. rewrite Hs. simpl.
  unfold then_catch, bind, tf_setBackend, emit, throw. simpl. rewrite Hb.
  rewrite <- app_assoc. reflexivity.
Qed.

Lemma app_init_load_rejected env (w : World LoadModel) (b : bool) (e : JsError) :
  permission_status env = "granted" ->
  backend env = Resolved b ->
  blazeface_load env (loads w) = Rejected e ->
  AppTsx.fn_initSetting env w =
    ({| events := (events w ++ init_calls)%list; canvas := canvas w;
        rstate := rstate w; pulled := pulled w; loads := Datatypes.S (loads w);
        scopes := [] :: scopes w |},
     Rejected (Error ("[-] Blazeface Model Load Error: " ++ render_error e))).
Proof.
  intros Hs Hb Hl.
  unfold AppTsx.fn_initSetting, bind, requestCameraPermissionsAsync, bind, emit, ret.
  simpl. rewrite Hs. simpl.
  unfold then_catch, bind, tf_setBackend, start_scope, console_log, emit, throw, ret,
    blazeface_load_call. simpl. rewrite Hb. simpl. rewrite Hl.
  repeat rewrite <- app_assoc. reflexivity.
Qed.

Lemma app_init_success env (w : World LoadModel) (b : bool) (m : BlazeFaceModel) :
  permission_status env = "granted" ->
  backend env = Resolved b ->
  blazeface_load env (loads w) = Resolved m ->
  AppTsx.fn_initSetting env w =
    ({| events := (events w ++ init_calls)%list; canvas := canvas w;
        rstate := loaded m; pulled := pulled w; loads := Datatypes.S (loads w);
        scopes := [] :: scopes w |},
     Resolved tt).
Proof.
  intros Hs Hb Hl.
  unfold AppTsx.fn_initSetting, bind, requestCameraPermissionsAsync, bind, emit, ret.
  simpl. rewrite Hs. simpl.
  unfold then_catch, bind, tf_setBackend, start_scope, console_log, emit, throw, ret,
    blazeface_load_call, set_state. simpl. rewrite Hb. simpl. rewrite Hl.
  repeat rewrite <- app_assoc. reflexivity.
Qed.

(** The four ways [fn_initSetting] can go. *)
Lemma app_init_cases env (w : World LoadModel) :
  permission_status env <> "granted" \/
  (permission_status env = "granted" /\ exists e, backend env = Rejected e) \/
  (permission_status env = "granted" /\
   exists b e, backend env = Resolved b /\
               blazeface_load env (loads w) = Rejected e) \/
  (permission_status env = "granted" /\
   exists b m, backend env = Resolved b /\
               blazeface_load env (loads w) = Resolved m).
Proof.
  destruct (String.eqb_spec (permission_status env) "granted") as [Hs|Hs];
    [|now left].
  right. destruct (backend env) as [b|e]; [|left; eauto].
  right. destruct (blazeface_load env (loads w)) as [m|e]; [right|left]; eauto.
Qed.

Lemma part000_init_granted env (w : World bool) :
  permission_status env = "granted" ->
  Part000.useEffect_init env w =
    match ready env with
    | Resolved _ =>
        ({| events := (events w ++ [EvRequestPermission; EvTfReady])%list;
            canvas := canvas w; rstate := true;
            pulled := pulled w; loads := loads w; scopes := scopes w |},
         Resolved tt)
    | Rejected e =>
        ({| events := (events w ++ [EvRequestPermission; EvTfReady;
                                    EvLog (LogTfReadyError e)])%list;
            canvas := canvas w; rstate := rstate w;
            pulled := pulled w; loads := loads w; scopes := scopes w |},
         Resolved tt)
    end.
Proof.
  intros Hs.
  unfold Part000.useEffect_init, Part000.fn_requestPermisison, Part000.fn_tfReady,
    bind, requestCameraPermissionsAsync, bind, emit, ret.
  simpl. rewrite Hs. simpl.
  unfold then_catch, bind, tf_ready, set_state, console_log, emit. simpl.
  destruct (ready env) as [u|e]; simpl; repeat rewrite <- app_assoc; reflexivity.
Qed.

(** C2, as the code has it.  In App.tsx, [fn_initSetting] calls the
    permission request, [tf.setBackend] and [blazeface.load] in that order
    and stops at the first that fails, a failure being a status other than
    "granted" or a rejected promise: the calls made are always an initial
    part of the full sequence; a denied permission rejects with the
    permission message after the request alone; a rejected [tf.setBackend]
    rejects with the Tensorflow Error after the first two calls, no model
    being loaded; a rejected [blazeface.load] rejects with the model-load
    Error; every rejection leaves the state unset (so the camera, and the
    loop with it, is never mounted); and the promise resolves, with the
    state set and the camera mounted, exactly when the permission is
    granted and both promises resolve.  In part_000, with the permission
    granted, initialization is the permission request followed by
    [tf.ready()], with no model load. *)
Theorem C2_app_init_in_order_and_terminal :
  forall (env : Env) (w : World LoadModel) (w' : World bool),
    let r := AppTsx.fn_initSetting env w in
    (exists k, events (fst r) = (events w ++ firstn k init_calls)%list) /\
    (forall e, snd r = Rejected e ->
               rstate (fst r) = rstate w /\
               (AppTsx.running (rstate w) = false ->
                AppTsx.running (rstate (fst r)) = false)) /\
    (permission_status env <> "granted" ->
       snd r = Rejected (Error AppTsx.permission_message) /\
       events (fst r) = (events w ++ [EvRequestPermission])%list) /\
    (forall c, permission_status env = "granted" -> backend env = Rejected c ->
       snd r = Rejected (Error ("[-] Tensorflow Ready Error: " ++ render_error c)) /\
       events (fst r)
         = (events w ++ [EvRequestPermission; EvSetBackend "rn-webgl"])%list /\
       loads (fst r) = loads w) /\
    (forall b c, permission_status env = "granted" -> backend env = Resolved b ->
       blazeface_load env (loads w) = Rejected c ->
       snd r = Rejected (Error ("[-] Blazeface Model Load Error: "
                                ++ render_error c)) /\
       events (fst r) = (events w ++ init_calls)%list) /\
    (snd r = Resolved tt <->
       permission_status env = "granted" /\
       (exists b, backend env = Resolved b) /\
       (exists m, blazeface_load env (loads w) = Resolved m)) /\
    (snd r = Resolved tt ->
       events (fst r) = (events w ++ init_calls)%list /\
       AppTsx.running (rstate (fst r)) = true /\
       exists m, blazeface_load env (loads w) = Resolved m /\
                 rstate (fst r) = loaded m) /\
    (permission_status env = "granted" ->
       exists logs,
         events (fst (Part000.useEffect_init env w'))
           = (events w' ++ [EvRequestPermission; EvTfReady] ++ logs)%list /\
         ~ In EvLoad logs /\
         (Part000.running (rstate (fst (Part000.useEffect_init env w'))) = true <->
          ready env = Resolved tt \/ Part000.running (rstate w') = true)).
Proof.
  intros env w w' r. subst r.
  assert (HP : permission_status env = "granted" ->
       exists logs,
         events (fst (Part000.useEffect_init env w'))
           = (events w' ++ [EvRequestPermission; EvTfReady] ++ logs)%list /\
         ~ In EvLoad logs /\
         (Part000.running (rstate (fst (Part000.useEffect_init env w'))) = true <->
          ready env = Resolved tt \/ Part000.running (rstate w') = true)).
  { intros Hs. rewrite (part000_init_granted env w' Hs).
    destruct (ready env) as [[]|e].
    - exists []. cbn [fst snd events rstate].
      split; [reflexivity|]. split; [intros []|]. split; [auto | reflexivity].
    - exists [EvLog (LogTfReadyError e)]. cbn [fst snd events rstate].
      split; [reflexivity|]. split; [simpl; intuition discriminate|].
      split; [auto | intros [H|H]; [discriminate | exact H]]. }
  destruct (app_init_cases env w)
    as [Hs | [[Hs [e Hb]] | [[Hs [b [e [Hb Hl]]]] | [Hs [b [m [Hb Hl]]]]]]].
  - rewrite (app_init_denied env w Hs). cbn [fst snd events rstate loads].
    split; [exists 1%nat; reflexivity|].
    split; [intros; split; auto|].
    split; [intros; split; reflexivity|].
    split; [intros c Hs'; contradiction|].
    split; [intros b c Hs'; contradiction|].
    split; [split; [discriminate | intros [Hs' _]; contradiction]|].
    split; [discriminate | exact HP].
  - rewrite (app_init_backend_rejected env w Hs Hb). cbn [fst snd events rstate loads].
    split; [exists 2%nat; reflexivity|].
    split; [intros; split; auto|].
    split; [intros Hs'; contradiction|].
    split.
    { intros c _ Hb'. rewrite Hb in Hb'. injection Hb' as <-. repeat split. }
    split; [intros b c _ Hb'; congruence|].
    split; [split; [discriminate | intros [_ [[b Hb'] _]]; congruence]|].
    split; [discriminate | exact HP].
  - rewrite (app_init_load_rejected env w Hs Hb Hl). cbn [fst snd events rstate loads].
    split; [exists 5%nat; reflexivity|].
    split; [intros; split; auto|].
    split; [intros Hs'; contradiction|].
    split; [intros c _ Hb'; congruence|].
    split.
    { intros b' c _ _ Hl'. rewrite Hl in Hl'. injection Hl' as <-. split; reflexivity. }
    split; [split; [discriminate | intros [_ [_ [m Hl']]]; congruence]|].
    split; [discriminate | exact HP].
  - rewrite (app_init_success env w Hs Hb Hl). cbn [fst snd events rstate loads].
    split; [exists 5%nat; reflexivity|].
    split; [discriminate|].
    split; [intros Hs'; contradiction|].
    split; [intros c _ Hb'; congruence|].
    split; [intros b' c _ _ Hl'; congruence|].
    split; [split; [intros _; eauto | reflexivity]|].
    split; [intros _; split; [reflexivity | split; [reflexivity | eauto]]|].
    exact HP.
Qed.

Lemma C2_app_init_in_order_and_terminal_witness :
  let env := env_with "denied" (Resolved true) (Resolved (model_returning [])) in
  let r := AppTsx.fn_initSetting env (fresh_world AppTsx.initial_state) in
  snd r = Rejected (Error AppTsx.permission_message) /\
  events (fst r) = [EvRequestPermission] /\
  AppTsx.running (rstate (fst r)) = false.
Proof.
  intros env r.
  destruct (C2_app_init_in_order_and_terminal env
              (fresh_world AppTsx.initial_state)
              (fresh_world Part000.initial_state)) as [_ [Ht [Hd _]]].
  destruct (Hd ltac:(discriminate)) as [Hr He].
  split; [exact Hr|]. split; [exact He|].
  exact (proj2 (Ht _ Hr) eq_refl).
Defined.

(** C2 as the spec words it fails in part_000.  With the permission
    denied, [fn_requestPermisison] only logs, [fn_tfReady] still runs, the
    effect resolves and the camera is mounted; and with the permission
    granted the camera is mounted after the request and [tf.ready()] alone,
    no model having been loaded. *)
Lemma C2_part000_denied_reaches_running :
  let denied := env_with "denied" (Resolved true) (Resolved (model_returning [])) in
  let granted := env_with "granted" (Resolved true) (Resolved (model_returning [])) in
  let r := Part000.useEffect_init denied (fresh_world Part000.initial_state) in
  let r' := Part000.useEffect_init granted (fresh_world Part000.initial_state) in
  permission_status denied <> "granted" /\
  snd r = Resolved tt /\
  Part000.running (rstate (fst r)) = true /\
  events (fst r)
    = [EvRequestPermission;
       EvLog (LogText "카메라의 권한 요청이 승인 되지 않았습니다.");
       EvTfReady] /\
  Part000.running (rstate (fst r')) = true /\
  events (fst r') = [EvRequestPermission; EvTfReady] /\
  loads (fst r') = 0%nat.
Proof.
  intros denied granted r r'. split; [discriminate|]. repeat split.
Qed.

(** ** The cycle in two turns

    The host runs a cycle in two turns: the pull and the estimate function
    up to its first await, then the rest once that await settles.  Run one
    after the other the two turns are the cycle in one piece. *)

Lemma app_estimate_split {S} (w : World S) init (t : option Tensor) :
  AppTsx.fn_estimateBlazeFace init t w
  = AppTsx.estimate_resume init t (AppTsx.estimate_begin init t w).
Proof.
  unfold AppTsx.fn_estimateBlazeFace, AppTsx.estimate_resume, AppTsx.estimate_begin.
  destruct t as [t|]; [|reflexivity].
  destruct (blazefaceModel init) as [m|]; reflexivity.
Qed.

Lemma part000_estimate_split env {S} (w : World S) (t : option Tensor) :
  Part000.fn_estimateBlazeFace env t w
  = Part000.estimate_resume env t (Part000.estimate_begin env t w).
Proof.
  unfold Part000.fn_estimateBlazeFace, Part000.estimate_resume,
    Part000.estimate_begin.
  destruct t as [t|]; reflexivity.
Qed.

Lemma loop_cycle_split env {S} (v : Variant) (t : option Tensor) (w : World S) :
  loop_cycle env v t w = loop_resume env v t (estimate_begin env v t w).
Proof.
  destruct v as [init|]; unfold loop_cycle, loop_resume, estimate_begin.
  - unfold AppTsx.loop_cycle, AppTsx.loop_resume, then_catch, bind at 1 2 4 5.
    now rewrite app_estimate_split.
  - unfold Part000.loop_cycle, Part000.loop_resume, then_catch, bind at 1 2 4 5.
    now rewrite part000_estimate_split.
Qed.

Lemma app_resume_resolved {S} (w : World S) init m t preds :
  blazefaceModel init = Some m ->
  estimateFaces m t false (Some true) = Resolved preds ->
  AppTsx.estimate_resume init (Some t) w =
    ({| events := ((events w ++ [EvLog (LogFaces (List.length preds))])
                   ++ [EvDispose t])%list;
        canvas := option_map
                    (if (0 <? List.length preds)%nat then draw_all preds
                     else clearRect 0 0 (width CAMERA_SIZE) (height CAMERA_SIZE))
                    (canvas w);
        rstate := rstate w; pulled := pulled w; loads := loads w;
        scopes := scopes w |},
     Resolved false).
Proof.
  intros Hm He.
  unfold AppTsx.estimate_resume, then_catch, bind, settled,
    AppTsx.on_predictions, bind, console_log, emit, fn_drawRect, clear_canvas,
    with_canvas, dispose, ret.
  rewrite Hm, He; simpl.
  destruct (0 <? List.length preds)%nat; reflexivity.
Qed.

Lemma app_resume_rejected {S} (w : World S) init m t e :
  blazefaceModel init = Some m ->
  estimateFaces m t false (Some true) = Rejected e ->
  AppTsx.estimate_resume init (Some t) w =
    ({| events := ((events w ++ [EvEndScope])
                   ++ map EvDispose (hd [] (scopes w)))%list;
        canvas := canvas w;
        rstate := rstate w; pulled := pulled w; loads := loads w;
        scopes := tl (scopes w) |},
     Rejected match scopes w with
              | [] => no_active_scope
              | _ :: _ => Error ("blazeface Estimate Error : " ++ render_error e)
              end).
Proof.
  intros Hm He.
  unfold AppTsx.estimate_resume, then_catch, bind, settled,
    AppTsx.on_estimate_error, bind, end_scope, emit, throw.
  rewrite Hm, He; simpl.
  destruct (scopes w) as [|tracked outer]; simpl;
    [rewrite app_nil_r|]; reflexivity.
Qed.

Lemma app_resume_no_model {S} (w : World S) init t :
  blazefaceModel init = None ->
  AppTsx.estimate_resume init (Some t) w = (w, Resolved false).
Proof. intros Hm. unfold AppTsx.estimate_resume. now rewrite Hm. Qed.

Lemma app_resume_undefined {S} (w : World S) init :
  AppTsx.estimate_resume init None w = (w, Rejected dispose_of_undefined).
Proof. reflexivity. Qed.

Lemma part000_resume_resolved env {S} (w : World S) m t preds :
  blazeface_load env (Nat.pred (loads w)) = Resolved m ->
  estimateFaces m t false None = Resolved preds ->
  Part000.estimate_resume env (Some t) w =
    ({| events := ((events w ++ [EvEstimate t false None])
                   ++ [EvLog (LogFaces (List.length preds))])%list;
        canvas := option_map
                    (if (0 <? List.length preds)%nat then draw_all preds
                     else clearRect 0 0 (width CAMERA_SIZE) (height CAMERA_SIZE))
                    (canvas w);
        rstate := rstate w; pulled := pulled w; loads := loads w;
        scopes := scopes w |},
     Resolved (0 <? List.length preds)%nat).
Proof.
  intros Hl He.
  unfold Part000.estimate_resume, bind, settled, await_estimate,
    console_log, emit, fn_drawRect, clear_canvas, with_canvas, ret.
  rewrite Hl; simpl. rewrite He; simpl.
  destruct (0 <? List.length preds)%nat; reflexivity.
Qed.

Lemma part000_resume_rejected env {S} (w : World S) m t e :
  blazeface_load env (Nat.pred (loads w)) = Resolved m ->
  estimateFaces m t false None = Rejected e ->
  Part000.estimate_resume env (Some t) w =
    ({| events := (events w ++ [EvEstimate t false None])%list;
        canvas := canvas w;
        rstate := rstate w; pulled := pulled w; loads := loads w;
        scopes := scopes w |},
     Rejected e).
Proof.
  intros Hl He.
  unfold Part000.estimate_resume, bind, settled, await_estimate, emit.
  rewrite Hl; simpl. rewrite He; reflexivity.
Qed.

Lemma part000_resume_load_rejected env {S} (w : World S) t e :
  blazeface_load env (Nat.pred (loads w)) = Rejected e ->
  Part000.estimate_resume env (Some t) w = (w, Rejected e).
Proof.
  intros Hl. unfold Part000.estimate_resume, bind, settled. now rewrite Hl.
Qed.

Lemma part000_resume_undefined env {S} (w : World S) :
  Part000.estimate_resume env None w = (w, Resolved false).
Proof. reflexivity. Qed.

Lemma app_loop_resume_unfold {S} (w : World S) init t :
  AppTsx.loop_resume init t w =
    match AppTsx.estimate_resume init t w with
    | (w1, Resolved b) =>
        ({| events := (events w1 ++ [EvLog (LogIsEstimate b)] ++ [EvSetTimeout 2000])%list;
            canvas := canvas w1; rstate := rstate w1;
            pulled := pulled w1; loads := loads w1; scopes := scopes w1 |},
         Resolved 2000)
    | (w1, Rejected e) =>
        ({| events := (events w1 ++ [EvLog (LogError e)] ++ [EvSetTimeout 2000])%list;
            canvas := canvas w1; rstate := rstate w1;
            pulled := pulled w1; loads := loads w1; scopes := scopes w1 |},
         Resolved 2000)
    end.
Proof.
  unfold AppTsx.loop_resume, then_catch, bind at 1 2.
  destruct (AppTsx.estimate_resume init t w) as [w1 [b|e]];
    unfold bind, console_log, emit, ret; simpl;
    rewrite <- app_assoc; reflexivity.
Qed.

Lemma part000_loop_resume_unfold env {S} (w : World S) t :
  Part000.loop_resume env t w =
    match Part000.estimate_resume env t w with
    | (w1, Resolved b) =>
        ({| events := (events w1 ++ [EvLog (LogIsEstimate b)] ++ [EvSetTimeout 2000])%list;
            canvas := canvas w1; rstate := rstate w1;
            pulled := pulled w1; loads := loads w1; scopes := scopes w1 |},
         Resolved 2000)
    | (w1, Rejected e) =>
        ({| events := (events w1 ++ [EvLog (LogError e)] ++ [EvSetTimeout 2000])%list;
            canvas := canvas w1; rstate := rstate w1;
            pulled := pulled w1; loads := loads w1; scopes := scopes w1 |},
         Resolved 2000)
    end.
Proof.
  unfold Part000.loop_resume, then_catch, bind at 1 2.
  destruct (Part000.estimate_resume env t w) as [w1 [b|e]];
    unfold bind, console_log, emit, ret; simpl;
    rewrite <- app_assoc; reflexivity.
Qed.


(** ** The host keeps one task *)

Lemma next_image_resolves env {S} (w : World S) :
  next_image env w =
    ({| events := (events w ++ [EvNext])%list; canvas := canvas w;
        rstate := rstate w; pulled := Datatypes.S (pulled w); loads := loads w;
        scopes := track (images env (pulled w)) (scopes w) |},
     Resolved (images env (pulled w))).
Proof. reflexivity. Qed.








Lemma count_error_logs_snoc (l : list Event) (e : Event) :
  count_error_logs (l ++ [e])
  = (count_error_logs l + if is_error_log e then 1 else 0)%nat.
Proof.
  rewrite count_error_logs_app. f_equal.
  unfold count_error_logs; simpl. now destruct (is_error_log e).
Qed.

Lemma timeout_cb_with_tensor {S} (v : Variant) (t : Tensor) (w : World S) :
  exists w2,
    timeout_cb v (Some t) w = (w2, Resolved tt) /\
    count_error_logs (events w2) = count_error_logs (events w) /\
    pulled w2 = pulled w.
Proof.
  destruct v as [init|]; unfold timeout_cb, AppTsx.timeout_cb, Part000.timeout_cb,
    bind, dispose, emit; simpl;
    eexists; (split; [reflexivity|]); cbn [events pulled]; (split; [|reflexivity]);
    rewrite ?app_assoc, !count_error_logs_snoc; cbn [is_error_log]; lia.
Qed.




(** In App.tsx a pull that yields no tensor ends the loop: the timer
    callback throws at [_tensorImage.dispose()] before it reaches
    [requestAnimationFrame]. *)
Lemma app_loop_stops_without_frame :
  option_map (fun h : Host unit => tasks h)
    (run env_without_frames (VApp (loaded (model_returning [])))
       [Fire 0%nat; Advance 2000; Fire 0%nat]
       (fn_onReadyTensorCamera env_without_frames
          (VApp (loaded (model_returning []))) (fresh_world tt) 0))
  = Some [].
Proof. vm_compute. reflexivity. Qed.



(** ** Failing cycles *)

(** What the first turn of the estimate function leaves alone. *)
Lemma estimate_begin_fields env {S} (v : Variant) (t : option Tensor) (w : World S) :
  pulled (estimate_begin env v t w) = pulled w /\
  rstate (estimate_begin env v t w) = rstate w /\
  canvas (estimate_begin env v t w) = canvas w /\
  scopes (estimate_begin env v t w) = scopes w /\
  count_error_logs (events (estimate_begin env v t w)) = count_error_logs (events w).
Proof.
  destruct v as [init|]; unfold estimate_begin, AppTsx.estimate_begin,
    Part000.estimate_begin.
  - destruct t as [t|]; [destruct (blazefaceModel init) as [m|]|];
      cbn [fst emit dispose throw blazeface_load_call pulled rstate canvas scopes events];
      repeat split; count_events; lia.
  - destruct t as [t|];
      cbn [fst emit dispose throw blazeface_load_call pulled rstate canvas scopes events];
      repeat split; count_events; lia.
Qed.

Lemma loop_resume_failing env {S} (v : Variant) (t : Tensor) (w : World S) :
  always_fails env v ->
  exists w1,
    loop_resume env v (Some t) w = (w1, Resolved 2000) /\
    count_error_logs (events w1) = Datatypes.S (count_error_logs (events w)) /\
    pulled w1 = pulled w.
Proof.
  intros Hf. destruct v as [init|]; unfold loop_resume.
  - destruct Hf as [m [Hm Hrej]]. destruct (Hrej t) as [e He].
    rewrite app_loop_resume_unfold, (app_resume_rejected w init t Hm He).
    eexists. split; [reflexivity|]. cbn [events pulled]. split; [|reflexivity].
    count_events. lia.
  - specialize (Hf (Nat.pred (loads w))). rewrite part000_loop_resume_unfold.
    destruct (blazeface_load env (Nat.pred (loads w))) as [m|e] eqn:Hl.
    + destruct (Hf t) as [e He].
      rewrite (part000_resume_rejected env w t Hl He).
      eexists. split; [reflexivity|]. cbn [events pulled]. split; [|reflexivity].
      count_events. lia.
    + rewrite (part000_resume_load_rejected env w t Hl).
      eexists. split; [reflexivity|]. cbn [events pulled]. split; [|reflexivity].
      count_events. lia.
Qed.

Lemma run_app env {S} (v : Variant) (l1 l2 : list Choice) (h : Host S) :
  run env v (l1 ++ l2) h =
    match run env v l1 h with
    | Some h1 => run env v l2 h1
    | None => None
    end.
Proof.
  revert h. induction l1 as [|c l1 IH]; intro h; simpl; [reflexivity|].
  destruct (choose env v c h); [apply IH | reflexivity].
Qed.

(** A failing cycle, seen from the host: it ends, is logged once, and two
    seconds and one animation frame later the next cycle is in flight. *)
Lemma one_cycle_failing env {S} (v : Variant) (h : Host S) (t : Tensor) :
  always_fails env v ->
  tasks h = [TInfer (Some t)] ->
  exists h',
    run env v one_cycle h = Some h' /\
    tasks h' = [TInfer (images env (pulled (world h)))] /\
    pulled (world h') = Datatypes.S (pulled (world h)) /\
    count_error_logs (events (world h'))
      = Datatypes.S (count_error_logs (events (world h))) /\
    now h' = now h + 2000.
Proof.
  intros Hf Ht.
  destruct (loop_resume_failing env v t (world h) Hf) as [w1 [E1 [C1 P1]]].
  destruct (timeout_cb_with_tensor v t w1) as [w2 [E2 [C2 P2]]].
  unfold one_cycle, run, choose, fire.
  rewrite Ht. cbn [nth_error]. rewrite E1.
  cbn [now tasks hist world remove_nth firstn skipn app nth_error].
  replace (0 <=? 2000) with true by reflexivity.
  cbn [now tasks hist world remove_nth firstn skipn app nth_error].
  rewrite Z.leb_refl, E2.
  cbn [now tasks hist world remove_nth firstn skipn app nth_error].
  unfold loop_begin. rewrite next_image_resolves.
  cbn [now tasks hist world remove_nth firstn skipn app nth_error].
  eexists. split; [reflexivity|].
  cbn [now tasks hist world].
  match goal with
  | |- context [estimate_begin env v ?t ?w] =>
      destruct (estimate_begin_fields env v t w) as [Bp [_ [_ [_ Bc]]]];
      rewrite Bp, Bc
  end.
  cbn [events pulled].
  rewrite P2, P1. split; [reflexivity|]. split; [reflexivity|].
  split; [|reflexivity].
  count_events. lia.
Qed.

Lemma cycles_failing env {S} (v : Variant) :
  frames env -> always_fails env v ->
  forall (n : nat) (h : Host S) (t : Tensor),
    tasks h = [TInfer (Some t)] ->
    exists h' t',
      run env v (cycles n) h = Some h' /\
      tasks h' = [TInfer (Some t')] /\
      pulled (world h') = (pulled (world h) + n)%nat /\
      count_error_logs (events (world h'))
        = (count_error_logs (events (world h)) + n)%nat /\
      now h' = now h + 2000 * Z.of_nat n.
Proof.
  intros Hfr Hf. induction n as [|n IH]; intros h t Ht.
  - exists h, t. simpl. repeat split; auto; lia.
  - destruct (one_cycle_failing env v h Hf Ht) as [h1 [R1 [T1 [P1 [C1 N1]]]]].
    destruct (Hfr (pulled (world h))) as [t1 Ht1]. rewrite Ht1 in T1.
    destruct (IH h1 t1 T1) as [h2 [t2 [R2 [T2 [P2 [C2 N2]]]]]].
    exists h2, t2. cbn [cycles]. rewrite run_app, R1.
    split; [exact R2|]. split; [exact T2|].
    rewrite P2, C2, N2, P1, C1, N1. repeat split; lia.
Qed.

(** C3, as the code has it: there is no failure threshold.  However many
    cycles fail in a row, each failure is caught and logged and the loop
    goes on: after n failing cycles, n errors are logged, 2000 n ms have
    passed and the next cycle is in flight. *)
Theorem C3_failures_never_stop_the_loop :
  forall (env : Env) (S : Type) (v : Variant) (w : World S) (t0 : Z) (n : nat),
    frames env ->
    always_fails env v ->
    exists h t,
      run env v (cycles n) (fn_onReadyTensorCamera env v w t0) = Some h /\
      tasks h = [TInfer (Some t)] /\
      in_flight (tasks h) = 1%nat /\
      count_error_logs (events (world h)) = (count_error_logs (events w) + n)%nat /\
      now h = t0 + 2000 * Z.of_nat n.
Proof.
  intros env S v w t0 n Hfr Hf.
  destruct (Hfr (pulled w)) as [t Ht].
  assert (Hstart : tasks (fn_onReadyTensorCamera env v w t0) = [TInfer (Some t)]).
  { unfold fn_onReadyTensorCamera, loop_begin. rewrite next_image_resolves.
    cbn [tasks app world]. rewrite Ht. reflexivity. }
  destruct (@cycles_failing env _ v Hfr Hf n _ t Hstart)
    as [h [t' [R [T [_ [C N]]]]]].
  exists h, t'. split; [exact R|]. split; [exact T|].
  split; [rewrite T; reflexivity|].
  split; [|exact N].
  rewrite C. unfold fn_onReadyTensorCamera, loop_begin.
  rewrite next_image_resolves. cbn [world].
  match goal with
  | |- context [estimate_begin env v ?t ?w] =>
      destruct (estimate_begin_fields env v t w) as [_ [_ [_ [_ Bc]]]]; rewrite Bc
  end.
  cbn [events]. count_events. lia.
Qed.

Lemma C3_failures_never_stop_the_loop_witness :
  let env := env_with "granted" (Resolved true)
               (Resolved (model_rejecting (Error "boom"))) in
  exists h t,
    run env VPart000 (cycles 3) (fn_onReadyTensorCamera env VPart000 (fresh_world tt) 0)
      = Some h /\
    tasks h = [TInfer (Some t)] /\
    in_flight (tasks h) = 1%nat /\
    count_error_logs (events (world h)) = (0 + 3)%nat /\
    now h = 0 + 2000 * Z.of_nat 3.
Proof.
  intros env.
  apply (@C3_failures_never_stop_the_loop env unit VPart000 (fresh_world tt) 0 3%nat).
  - intros k. exists k. reflexivity.
  - intros k t. exists (Error "boom"). reflexivity.
Defined.

(** C3 as the spec words it fails for every threshold; here for three
    failures in a row, in both components: all three are logged, and the
    fourth cycle is in flight at 6000 ms, the scheduler has not stopped. *)
Lemma C3_three_failures_do_not_halt :
  let m := model_rejecting (Error "boom") in
  let env := env_with "granted" (Resolved true) (Resolved m) in
  forallb
    (fun vw : Variant * World unit =>
       let (v, w) := vw in
       match run env v (cycles 3) (fn_onReadyTensorCamera env v w 0) with
       | Some h =>
           Nat.eqb (count_error_logs (events (world h))) 3 &&
           Nat.eqb (in_flight (tasks h)) 1 &&
           match tasks h, hist h with
           | [TInfer (Some 3%nat)], CycleStart 6000 :: _ => true
           | _, _ => false
           end
       | None => false
       end)
    [(VApp (loaded m), ready_world tt); (VPart000, fresh_world tt)] = true.
Proof. vm_compute. reflexivity. Qed.

(** The world of the second failing cycle is one the host reaches: after
    initialization and one failing cycle of App.tsx, the loop is suspended
    at the estimate of frame 1 with no engine scope open. *)
Lemma app_second_failure_reached :
  let env := env_with "granted" (Resolved true)
               (Resolved (model_rejecting (Error "boom"))) in
  match run env (VApp rejecting_init) one_cycle
          (fn_onReadyTensorCamera env (VApp rejecting_init) (ready_world tt) 0) with
  | Some h =>
      tasks h = [TInfer (Some 1%nat)] /\
      world h = AppTsx.estimate_begin rejecting_init (Some 1%nat) second_failure_world /\
      scopes (world h) = []
  | None => False
  end.
Proof. vm_compute. repeat split. Qed.

(** * Further properties of the code *)

(** ** [fn_drawRect] *)

Lemma draw_all_app (ps qs : list NormalizedFace) :
  forall c, draw_all (ps ++ qs) c = draw_all qs (draw_all ps c).
Proof.
  induction ps as [|p ps IH]; intro c; [reflexivity|].
  cbn [app draw_all]. apply IH.
Qed.

(** X1: drawing a list of detections in one call of [fn_drawRect] is the
    same as drawing a first part of it and then the rest in a second call:
    the world, and the canvas in it, end up identical. *)
Theorem X1_drawRect_composes :
  forall (S : Type) (w : World S) (ps qs : list NormalizedFace),
    fn_drawRect (ps ++ qs) w = (fn_drawRect ps ;; fn_drawRect qs) w.
Proof.
  intros S w ps qs. unfold fn_drawRect, with_canvas, bind. cbn [fst snd].
  cbn [events canvas rstate pulled loads].
  destruct (canvas w) as [c|]; cbn [option_map]; [|reflexivity].
  now rewrite draw_all_app.
Qed.

Lemma resizes_draw_calls (ps : list NormalizedFace) :
  List.length (filter is_resize (flat_map draw_calls ps)) = (2 * List.length ps)%nat.
Proof.
  induction ps as [|p ps IH]; [reflexivity|].
  cbn [flat_map]. rewrite filter_app, length_app, IH. cbn. lia.
Qed.

Lemma length_draw_calls (ps : list NormalizedFace) :
  List.length (flat_map draw_calls ps) = (5 * List.length ps)%nat.
Proof.
  induction ps as [|p ps IH]; [reflexivity|].
  cbn [flat_map]. rewrite length_app, IH. cbn. lia.
Qed.

(** X2: [fn_drawRect] resizes the canvas once per detection, not once per
    call: on a mounted canvas, n detections cost n height and n width
    assignments, and five canvas calls each in all. *)
Theorem X2_drawRect_resizes_per_detection :
  forall (S : Type) (w : World S) (c : Canvas) (ps : list NormalizedFace),
    canvas w = Some c ->
    exists c',
      canvas (fst (fn_drawRect ps w)) = Some c' /\
      List.length (resizes c') = (List.length (resizes c) + 2 * List.length ps)%nat /\
      List.length (c_ops c') = (List.length (c_ops c) + 5 * List.length ps)%nat.
Proof.
  intros S w c ps Hc. exists (draw_all ps c).
  unfold fn_drawRect, with_canvas; cbn [fst canvas]. rewrite Hc.
  split; [reflexivity|]. unfold resizes. rewrite draw_all_ops. split.
  - now rewrite filter_app, length_app, resizes_draw_calls.
  - now rewrite length_app, length_draw_calls.
Qed.

Lemma X2_drawRect_resizes_per_detection_witness :
  exists c',
    canvas (fst (fn_drawRect [face_10_10_50_60; face_10_10_50_60] (fresh_world tt)))
      = Some c' /\
    List.length (resizes c') = (0 + 2 * 2)%nat /\
    List.length (c_ops c') = (0 + 5 * 2)%nat.
Proof.
  exact (X2_drawRect_resizes_per_detection (fresh_world tt)
           [face_10_10_50_60; face_10_10_50_60] (c := blank_canvas) eq_refl).
Defined.

(** X3: whatever size and stroke settings the canvas had, after
    [fn_drawRect] has drawn at least one detection it has the camera size
    (height 480, width 320), stroke style "red" and line width 6. *)
Theorem X3_drawRect_sets_size_and_style :
  forall (S : Type) (w : World S) (c : Canvas) (ps : list NormalizedFace),
    canvas w = Some c ->
    ps <> [] ->
    exists c',
      canvas (fst (fn_drawRect ps w)) = Some c' /\
      c_height c' = 480 /\ c_width c' = 320 /\
      c_strokeStyle c' = "red" /\ c_lineWidth c' = 6.
Proof.
  intros S w c ps Hc Hne. exists (draw_all ps c).
  unfold fn_drawRect, with_canvas; cbn [fst canvas]. rewrite Hc.
  split; [reflexivity|]. exact (draw_all_size Hne c).
Qed.

Lemma X3_drawRect_sets_size_and_style_witness :
  exists c',
    canvas (fst (fn_drawRect [face_10_10_50_60] (fresh_world tt))) = Some c' /\
    c_height c' = 480 /\ c_width c' = 320 /\
    c_strokeStyle c' = "red" /\ c_lineWidth c' = 6.
Proof.
  apply (X3_drawRect_sets_size_and_style (fresh_world tt) (c := blank_canvas)
           (ps := [face_10_10_50_60]) eq_refl).
  discriminate.
Defined.

(** ** One call of the estimate functions, continued *)

Lemma part000_estimate_undefined env {S} (w : World S) :
  Part000.fn_estimateBlazeFace env None w = (w, Resolved false).
Proof. reflexivity. Qed.

(** X4: the canvas has no influence on what a cycle calls or returns.  In
    both components two worlds that differ only in their canvas (mounted or
    not, whatever it shows) get the same calls logged and the same result
    from the estimate function; and a canvas that is not mounted stays so. *)
Theorem X4_canvas_does_not_influence_cycle :
  forall (env : Env) (S : Type) (w1 w2 : World S) (init : LoadModel)
         (t : option Tensor),
    events w1 = events w2 ->
    loads w1 = loads w2 ->
    scopes w1 = scopes w2 ->
    let a1 := AppTsx.fn_estimateBlazeFace init t w1 in
    let a2 := AppTsx.fn_estimateBlazeFace init t w2 in
    let p1 := Part000.fn_estimateBlazeFace env t w1 in
    let p2 := Part000.fn_estimateBlazeFace env t w2 in
    snd a1 = snd a2 /\ events (fst a1) = events (fst a2) /\
    snd p1 = snd p2 /\ events (fst p1) = events (fst p2) /\
    (canvas w1 = None -> canvas (fst a1) = None /\ canvas (fst p1) = None).
Proof.
  intros env S w1 w2 init t Hev Hl Hsc a1 a2 p1 p2. subst a1 a2 p1 p2.
  destruct t as [t|].
  - assert (HA : snd (AppTsx.fn_estimateBlazeFace init (Some t) w1)
                 = snd (AppTsx.fn_estimateBlazeFace init (Some t) w2) /\
                 events (fst (AppTsx.fn_estimateBlazeFace init (Some t) w1))
                 = events (fst (AppTsx.fn_estimateBlazeFace init (Some t) w2)) /\
                 (canvas w1 = None ->
                  canvas (fst (AppTsx.fn_estimateBlazeFace init (Some t) w1)) = None)).
    { destruct (blazefaceModel init) as [m|] eqn:Hm.
      - destruct (estimateFaces m t false (Some true)) as [ps|e] eqn:He.
        + rewrite !(app_estimate_resolved _ init t Hm He). cbn [fst snd events canvas].
          rewrite Hev. repeat split. intros ->. reflexivity.
        + rewrite !(app_estimate_rejected _ init t Hm He). cbn [fst snd events canvas].
          rewrite Hev, Hsc. repeat split. auto.
      - rewrite !(app_estimate_no_model _ init t Hm). cbn [fst snd events canvas].
        rewrite Hev. repeat split. auto. }
    assert (HP : snd (Part000.fn_estimateBlazeFace env (Some t) w1)
                 = snd (Part000.fn_estimateBlazeFace env (Some t) w2) /\
                 events (fst (Part000.fn_estimateBlazeFace env (Some t) w1))
                 = events (fst (Part000.fn_estimateBlazeFace env (Some t) w2)) /\
                 (canvas w1 = None ->
                  canvas (fst (Part000.fn_estimateBlazeFace env (Some t) w1)) = None)).
    { destruct (blazeface_load env (loads w1)) as [m|e] eqn:Hl1.
      - assert (Hl2 : blazeface_load env (loads w2) = Resolved m) by now rewrite <- Hl.
        destruct (estimateFaces m t false None) as [ps|e] eqn:He.
        + rewrite (part000_estimate_resolved env w1 t Hl1 He),
            (part000_estimate_resolved env w2 t Hl2 He).
          cbn [fst snd events canvas]. rewrite Hev. repeat split. intros ->. reflexivity.
        + rewrite (part000_estimate_rejected env w1 t Hl1 He),
            (part000_estimate_rejected env w2 t Hl2 He).
          cbn [fst snd events canvas]. rewrite Hev. repeat split. auto.
      - assert (Hl2 : blazeface_load env (loads w2) = Rejected e) by now rewrite <- Hl.
        rewrite (part000_estimate_load_rejected env w1 t Hl1),
          (part000_estimate_load_rejected env w2 t Hl2).
        cbn [fst snd events canvas]. rewrite Hev. repeat split. auto. }
    destruct HA as [A1 [A2 A3]]. destruct HP as [P1 [P2 P3]].
    repeat split; auto.
  - rewrite !app_estimate_undefined, !part000_estimate_undefined.
    cbn [fst snd]. repeat split; auto.
Qed.

Lemma X4_canvas_does_not_influence_cycle_witness :
  let env := env_with "granted" (Resolved true)
               (Resolved (model_returning [face_10_10_50_60])) in
  let w1 := fresh_world tt in
  let w2 := {| events := []; canvas := None; rstate := tt;
               pulled := 0; loads := 0; scopes := [] |} in
  snd (AppTsx.fn_estimateBlazeFace (loaded (model_returning [face_10_10_50_60]))
         (Some 0%nat) w1)
  = snd (AppTsx.fn_estimateBlazeFace (loaded (model_returning [face_10_10_50_60]))
           (Some 0%nat) w2).
Proof.
  intros env w1 w2.
  exact (proj1 (X4_canvas_does_not_influence_cycle env w1 w2
                  (loaded (model_returning [face_10_10_50_60])) (Some 0%nat)
                  eq_refl eq_refl eq_refl)).
Defined.

(** X5: a cycle draws every detection the model returns and nothing else.
    In both components, when the model answers with a list, the
    [strokeRect] calls the estimate function adds to a mounted canvas are
    exactly the rectangles of that list, in its order (none for the empty
    list). *)
Theorem X5_cycle_draws_every_detection :
  forall (env : Env) (S : Type) (w : World S) (c : Canvas) (init : LoadModel)
         (m m' : BlazeFaceModel) (t : Tensor) (preds : list NormalizedFace),
    canvas w = Some c ->
    blazefaceModel init = Some m ->
    estimateFaces m t false (Some true) = Resolved preds ->
    blazeface_load env (loads w) = Resolved m' ->
    estimateFaces m' t false None = Resolved preds ->
    exists ca cp,
      canvas (fst (AppTsx.fn_estimateBlazeFace init (Some t) w)) = Some ca /\
      canvas (fst (Part000.fn_estimateBlazeFace env (Some t) w)) = Some cp /\
      strokes ca = (strokes c ++ map rect_of preds)%list /\
      strokes cp = (strokes c ++ map rect_of preds)%list.
Proof.
  intros env S w c init m m' t preds Hc Hm He Hl He'.
  rewrite (app_estimate_resolved w init t Hm He).
  rewrite (part000_estimate_resolved env w t Hl He').
  cbn [fst canvas]. rewrite Hc. cbn [option_map].
  destruct preds as [|p ps].
  - cbn [List.length Nat.ltb Nat.leb].
    exists (clearRect 0 0 (width CAMERA_SIZE) (height CAMERA_SIZE) c),
           (clearRect 0 0 (width CAMERA_SIZE) (height CAMERA_SIZE) c).
    split; [reflexivity|]. split; [reflexivity|].
    unfold strokes, clearRect, push_op; cbn [c_ops map].
    rewrite filter_app. cbn. now rewrite !app_nil_r.
  - change (0 <? List.length (p :: ps))%nat with true.
    exists (draw_all (p :: ps) c), (draw_all (p :: ps) c).
    split; [reflexivity|]. split; [reflexivity|].
    split; apply draw_all_strokes.
Qed.

Lemma X5_cycle_draws_every_detection_witness :
  let ps := [face_10_10_50_60; {| topLeft := (0, 0); bottomRight := (5, 5) |}] in
  exists ca cp,
    canvas (fst (AppTsx.fn_estimateBlazeFace (loaded (model_returning ps))
                   (Some 0%nat) (fresh_world tt))) = Some ca /\
    canvas (fst (Part000.fn_estimateBlazeFace
                   (env_with "granted" (Resolved true) (Resolved (model_returning ps)))
                   (Some 0%nat) (fresh_world tt))) = Some cp /\
    strokes ca = (strokes blank_canvas ++ map rect_of ps)%list /\
    strokes cp = (strokes blank_canvas ++ map rect_of ps)%list.
Proof.
  intros ps.
  exact (X5_cycle_draws_every_detection
           (env_with "granted" (Resolved true) (Resolved (model_returning ps)))
           (fresh_world tt) (loaded (model_returning ps))
           (m := model_returning ps) (m' := model_returning ps) 0%nat
           (c := blank_canvas) eq_refl eq_refl eq_refl eq_refl eq_refl).
Defined.

(** X6: a cycle that fails leaves the overlay as it was.  Whenever the
    estimate function of either component rejects, whatever the reason, the
    canvas is untouched: it is neither cleared nor drawn on, so what the
    last successful cycle drew stays on screen. *)
Theorem X6_failed_cycle_keeps_canvas :
  forall (env : Env) (S : Type) (w : World S) (init : LoadModel)
         (t : option Tensor) (e : JsError),
    (snd (AppTsx.fn_estimateBlazeFace init t w) = Rejected e ->
     canvas (fst (AppTsx.fn_estimateBlazeFace init t w)) = canvas w) /\
    (snd (Part000.fn_estimateBlazeFace env t w) = Rejected e ->
     canvas (fst (Part000.fn_estimateBlazeFace env t w)) = canvas w).
Proof.
  intros env S w init t e. destruct t as [t|].
  - split.
    + destruct (blazefaceModel init) as [m|] eqn:Hm.
      * destruct (estimateFaces m t false (Some true)) as [ps|e0] eqn:He.
        -- rewrite (app_estimate_resolved w init t Hm He). discriminate.
        -- rewrite (app_estimate_rejected w init t Hm He). reflexivity.
      * rewrite (app_estimate_no_model w init t Hm). discriminate.
    + destruct (blazeface_load env (loads w)) as [m|e0] eqn:Hl.
      * destruct (estimateFaces m t false None) as [ps|e1] eqn:He.
        -- rewrite (part000_estimate_resolved env w t Hl He). discriminate.
        -- rewrite (part000_estimate_rejected env w t Hl He). reflexivity.
      * rewrite (part000_estimate_load_rejected env w t Hl). reflexivity.
  - rewrite app_estimate_undefined, part000_estimate_undefined.
    split; [reflexivity | discriminate].
Qed.

Lemma X6_failed_cycle_keeps_canvas_witness :
  canvas (fst (AppTsx.fn_estimateBlazeFace (loaded (model_rejecting (Error "boom")))
                 (Some 0%nat) (ready_world tt)))
  = Some blank_canvas.
Proof.
  exact (proj1 (X6_failed_cycle_keeps_canvas
                  (env_with "granted" (Resolved true) (Resolved (model_returning [])))
                  (ready_world tt) (loaded (model_rejecting (Error "boom")))
                  (Some 0%nat)
                  (Error "blazeface Estimate Error : Error: boom"))
               eq_refl).
Defined.

(** X7: how App.tsx accounts for a frame.  For every tensor, by the time
    the timer callback of its cycle has run, [dispose] has been called on
    it at least once on every path: twice when the estimate function
    resolved (with or without a model), once by the function and once by
    the timer callback; and when it rejected, once by the timer callback
    plus the calls [endScope()] makes on it, one if the innermost open
    scope tracks the frame and none if no scope is open. *)
Theorem X7_app_dispose_count_per_cycle :
  forall (S : Type) (w : World S) (init : LoadModel) (t : Tensor),
    let r0 := AppTsx.fn_estimateBlazeFace init (Some t) w in
    let w2 := fst (AppTsx.timeout_cb (Some t)
                     (fst (AppTsx.loop_cycle init (Some t) w))) in
    count_dispose t (events w2)
    = (count_dispose t (events w)
       + match snd r0 with
         | Resolved _ => 2
         | Rejected _ => tracked_in t (scopes w) + 1
         end)%nat /\
    (scopes w = [] -> tracked_in t (scopes w) = 0%nat) /\
    (forall tracked outer, scopes w = (tracked ++ [t])%list :: outer ->
                           ~ In t tracked -> tracked_in t (scopes w) = 1%nat).
Proof.
  intros S w init t r0 w2. subst r0 w2. split; [|split].
  - rewrite app_loop_cycle_unfold.
    unfold AppTsx.timeout_cb, bind, dispose, emit.
    destruct (blazefaceModel init) as [m|] eqn:Hm.
    + destruct (estimateFaces m t false (Some true)) as [ps|e] eqn:He.
      * rewrite (app_estimate_resolved w init t Hm He). cbn [fst snd events].
        count_events. lia.
      * rewrite (app_estimate_rejected w init t Hm He). cbn [fst snd events].
        unfold tracked_in. count_events. lia.
    + rewrite (app_estimate_no_model w init t Hm). cbn [fst snd events].
      count_events. lia.
  - intros ->. reflexivity.
  - intros tracked outer -> Hn. unfold tracked_in. cbn [hd].
    rewrite map_app. cbn [map].
    rewrite count_dispose_app, count_dispose_single.
    cbn [is_dispose]. rewrite Nat.eqb_refl.
    assert (H0 : count_dispose t (map EvDispose tracked) = 0%nat).
    { clear - Hn. induction tracked as [|x l IH]; [reflexivity|].
      unfold count_dispose in *. cbn [map filter is_dispose].
      destruct (Nat.eqb_spec t x) as [->|Hx].
      - exfalso. apply Hn. now left.
      - apply IH. intro H. apply Hn. now right. }
    rewrite H0. reflexivity.
Qed.

(** ** What the loop does to the world, over every schedule *)

(** An invariant of the host is one that each of its four moves keeps. *)
Lemma run_preserves env {S} (v : Variant) (P : Host S -> Prop) :
  (forall h d, P h ->
     P {| now := now h + d; tasks := tasks h; hist := hist h; world := world h |}) ->
  (forall h i t, P h -> nth_error (tasks h) i = Some (TInfer t) ->
     P {| now := now h;
          tasks := remove_nth i (tasks h) ++
                   match snd (loop_resume env v t (world h)) with
                   | Resolved ms => [TTimeout (now h + ms) t]
                   | Rejected _ => []
                   end;
          hist := CycleEnd (now h) :: hist h;
          world := fst (loop_resume env v t (world h)) |}) ->
  (forall h i due t, P h -> nth_error (tasks h) i = Some (TTimeout due t) ->
     due <= now h ->
     P {| now := now h;
          tasks := remove_nth i (tasks h) ++
                   match snd (timeout_cb v t (world h)) with
                   | Resolved _ => [TRaf]
                   | Rejected _ => []
                   end;
          hist := TimerFired (now h) :: hist h;
          world := fst (timeout_cb v t (world h)) |}) ->
  (forall h i, P h -> nth_error (tasks h) i = Some TRaf ->
     P (loop_begin env v {| now := now h; tasks := remove_nth i (tasks h);
                            hist := RafFired (now h) :: hist h;
                            world := world h |})) ->
  forall sched h h', P h -> run env v sched h = Some h' -> P h'.
Proof.
  intros Hadv Hinf Htim Hraf.
  induction sched as [|c sched IH]; simpl; intros h h' HP Hr.
  - injection Hr as <-. exact HP.
  - destruct (choose env v c h) as [h1|] eqn:Hc; [|discriminate].
    apply (IH h1 h'); [|exact Hr]. clear IH Hr.
    destruct c as [d|i]; simpl in Hc.
    + destruct (0 <=? d); [|discriminate]. injection Hc as <-. now apply Hadv.
    + unfold fire in Hc.
      destruct (nth_error (tasks h) i) as [[t|due t|]|] eqn:Hn; [| | |discriminate].
      * specialize (Hinf h i t HP Hn).
        destruct (loop_resume env v t (world h)) as [w1 r].
        injection Hc as <-. exact Hinf.
      * destruct (due <=? now h) eqn:Hd; [|discriminate].
        apply Z.leb_le in Hd. specialize (Htim h i due t HP Hn Hd).
        destruct (timeout_cb v t (world h)) as [w1 r].
        injection Hc as <-. exact Htim.
      * injection Hc as <-. now apply Hraf.
Qed.

Lemma app_loop_resume_fields {S} (w : World S) init (t : option Tensor) :
  pulled (fst (AppTsx.loop_resume init t w)) = pulled w /\
  loads (fst (AppTsx.loop_resume init t w)) = loads w /\
  rstate (fst (AppTsx.loop_resume init t w)) = rstate w.
Proof.
  rewrite app_loop_resume_unfold. destruct t as [t|].
  - destruct (blazefaceModel init) as [m|] eqn:Hm.
    + destruct (estimateFaces m t false (Some true)) as [ps|e] eqn:He.
      * rewrite (app_resume_resolved w init t Hm He). repeat split.
      * rewrite (app_resume_rejected w init t Hm He). repeat split.
    + rewrite (app_resume_no_model w init t Hm). repeat split.
  - rewrite app_resume_undefined. repeat split.
Qed.

Lemma part000_loop_resume_fields env {S} (w : World S) (t : option Tensor) :
  pulled (fst (Part000.loop_resume env t w)) = pulled w /\
  loads (fst (Part000.loop_resume env t w)) = loads w /\
  rstate (fst (Part000.loop_resume env t w)) = rstate w.
Proof.
  rewrite part000_loop_resume_unfold. destruct t as [t|].
  - destruct (blazeface_load env (Nat.pred (loads w))) as [m|e] eqn:Hl.
    + destruct (estimateFaces m t false None) as [ps|e] eqn:He.
      * rewrite (part000_resume_resolved env w t Hl He). repeat split.
      * rewrite (part000_resume_rejected env w t Hl He). repeat split.
    + rewrite (part000_resume_load_rejected env w t Hl). repeat split.
  - rewrite part000_resume_undefined. repeat split.
Qed.

Lemma timeout_cb_fields {S} (v : Variant) (t : option Tensor) (w : World S) :
  pulled (fst (timeout_cb v t w)) = pulled w /\
  loads (fst (timeout_cb v t w)) = loads w /\
  rstate (fst (timeout_cb v t w)) = rstate w /\
  canvas (fst (timeout_cb v t w)) = canvas w.
Proof.
  destruct v as [init|], t as [t|]; repeat split.
Qed.

Lemma loop_resume_pulled env {S} (v : Variant) (t : option Tensor) (w : World S) :
  pulled (fst (loop_resume env v t w)) = pulled w.
Proof.
  destruct v as [init|]; unfold loop_resume.
  - apply app_loop_resume_fields.
  - apply part000_loop_resume_fields.
Qed.

(** The first turn of the estimate function loads the model in part_000,
    when there is a tensor, and never in App.tsx. *)
Lemma estimate_begin_loads env {S} (v : Variant) (t : option Tensor) (w : World S) :
  loads (estimate_begin env v t w)
  = (loads w + match v, t with
               | VPart000, Some _ => 1
               | _, _ => 0
               end)%nat.
Proof.
  destruct v as [init|]; unfold estimate_begin, AppTsx.estimate_begin,
    Part000.estimate_begin.
  - destruct t as [t|]; [destruct (blazefaceModel init) as [m|]|];
      cbn [fst emit dispose throw loads]; lia.
  - destruct t as [t|]; cbn [fst blazeface_load_call loads]; lia.
Qed.

(** X8: the loop pulls exactly one frame per cycle.  Over every schedule
    and in both components, the number of [images.next()] calls made since
    the camera became ready equals the number of cycles started; no cycle
    runs on an old frame and none pulls twice. *)
Theorem X8_one_frame_per_cycle :
  forall (env : Env) (S : Type) (v : Variant) (w : World S) (t0 : Z)
         (sched : list Choice) (h : Host S),
    run env v sched (fn_onReadyTensorCamera env v w t0) = Some h ->
    pulled (world h) = (pulled w + count_starts (hist h))%nat /\
    (1 <= count_starts (hist h))%nat.
Proof.
  intros env S v w t0 sched h Hrun.
  refine (@run_preserves env S v
            (fun h => pulled (world h) = (pulled w + count_starts (hist h))%nat /\
                      (1 <= count_starts (hist h))%nat)
            _ _ _ _ sched (fn_onReadyTensorCamera env v w t0) h _ Hrun).
  - intros h0 d HP. exact HP.
  - intros h0 i t [HP1 HP2] _. cbn [world hist].
    rewrite loop_resume_pulled. exact (conj HP1 HP2).
  - intros h0 i due t [HP1 HP2] _ _. cbn [world hist].
    destruct (timeout_cb_fields v t (world h0)) as [Hp _]. rewrite Hp.
    exact (conj HP1 HP2).
  - intros h0 i [HP1 HP2] _. unfold loop_begin. rewrite next_image_resolves.
    cbn [world hist].
    match goal with
    | |- context [estimate_begin env v ?t ?w] =>
        destruct (estimate_begin_fields env v t w) as [Bp _]; rewrite Bp
    end.
    cbn [pulled]. unfold count_starts in *. cbn [filter is_cycle_start].
    cbn [List.length]. split; lia.
  - unfold fn_onReadyTensorCamera, loop_begin. rewrite next_image_resolves.
    cbn [world hist].
    match goal with
    | |- context [estimate_begin env v ?t ?w] =>
        destruct (estimate_begin_fields env v t w) as [Bp _]; rewrite Bp
    end.
    cbn. split; lia.
Qed.

Lemma X8_one_frame_per_cycle_witness :
  let env := env_with "granted" (Resolved true) (Resolved (model_returning [])) in
  match run env VPart000 (cycles 2)
          (fn_onReadyTensorCamera env VPart000 (fresh_world tt) 0) with
  | Some h => pulled (world h) = (0 + count_starts (hist h))%nat
  | None => False
  end.
Proof.
  intros env.
  destruct (run env VPart000 (cycles 2)
              (fn_onReadyTensorCamera env VPart000 (fresh_world tt) 0)) as [h|] eqn:E.
  - exact (proj1 (@X8_one_frame_per_cycle _ _ _ _ _ _ _ E)).
  - vm_compute in E. discriminate E.
Defined.

(** X9: the loop of App.tsx never loads the model.  Over every schedule
    the number of [blazeface.load()] calls stays what it was when the camera
    became ready: every cycle estimates with the handle its closures hold. *)
Theorem X9_app_loop_never_loads :
  forall (env : Env) (S : Type) (init : LoadModel) (w : World S) (t0 : Z)
         (sched : list Choice) (h : Host S),
    run env (VApp init) sched (fn_onReadyTensorCamera env (VApp init) w t0) = Some h ->
    loads (world h) = loads w /\ rstate (world h) = rstate w.
Proof.
  intros env S init w t0 sched h Hrun.
  refine (@run_preserves env S (VApp init)
            (fun h => loads (world h) = loads w /\ rstate (world h) = rstate w)
            _ _ _ _ sched (fn_onReadyTensorCamera env (VApp init) w t0) h _ Hrun).
  - intros h0 d HP. exact HP.
  - intros h0 i t [HP1 HP2] _. cbn [world loop_resume].
    destruct (app_loop_resume_fields (world h0) init t) as [_ [Hl Hs]].
    rewrite Hl, Hs. exact (conj HP1 HP2).
  - intros h0 i due t [HP1 HP2] _ _. cbn [world].
    destruct (timeout_cb_fields (VApp init) t (world h0)) as [_ [Hl [Hs _]]].
    rewrite Hl, Hs. exact (conj HP1 HP2).
  - intros h0 i [HP1 HP2] _. unfold loop_begin. rewrite next_image_resolves.
    cbn [world].
    match goal with
    | |- context [estimate_begin env (VApp init) ?t ?w] =>
        destruct (estimate_begin_fields env (VApp init) t w) as [_ [Bs _]];
        rewrite Bs, (estimate_begin_loads env (VApp init) t w)
    end.
    cbn [loads rstate]. split; [lia | exact HP2].
  - unfold fn_onReadyTensorCamera, loop_begin. rewrite next_image_resolves.
    cbn [world].
    match goal with
    | |- context [estimate_begin env (VApp init) ?t ?w] =>
        destruct (estimate_begin_fields env (VApp init) t w) as [_ [Bs _]];
        rewrite Bs, (estimate_begin_loads env (VApp init) t w)
    end.
    cbn [loads rstate]. split; [lia | reflexivity].
Qed.

Lemma X9_app_loop_never_loads_witness :
  let env := env_with "granted" (Resolved true) (Resolved (model_returning [])) in
  let v := VApp (loaded (model_returning [face_10_10_50_60])) in
  match run env v (cycles 2) (fn_onReadyTensorCamera env v (ready_world tt) 0) with
  | Some h => loads (world h) = 0%nat
  | None => False
  end.
Proof.
  intros env v.
  destruct (run env v (cycles 2)
              (fn_onReadyTensorCamera env v (ready_world tt) 0)) as [h|] eqn:E.
  - exact (proj1 (@X9_app_loop_never_loads _ _ _ _ _ _ _ E)).
  - vm_compute in E. discriminate E.
Defined.

Lemma forallb_remove_nth {A} (f : A -> bool) (i : nat) (l : list A) :
  forallb f l = true -> forallb f (remove_nth i l) = true.
Proof.
  unfold remove_nth. revert i.
  induction l as [|x l IH]; intros i H.
  - now destruct i.
  - cbn [forallb] in H. apply andb_prop in H. destruct H as [Hx Hl].
    destruct i as [|i].
    + cbn [firstn skipn app]. exact Hl.
    + cbn [firstn skipn app forallb]. rewrite Hx. exact (IH i Hl).
Qed.

Lemma forallb_nth_error {A} (f : A -> bool) (i : nat) (l : list A) (x : A) :
  forallb f l = true -> nth_error l i = Some x -> f x = true.
Proof.
  intros H Hn. rewrite forallb_forall in H. apply H.
  eapply nth_error_In; eassumption.
Qed.

(** X10: in part_000 the model is loaded anew for every frame, as soon as
    the cycle starts.  While the camera has frames, over every schedule the
    number of [blazeface.load()] calls made by the loop equals the number of
    cycles started, the one in flight included. *)
Theorem X10_part000_loads_once_per_cycle :
  forall (env : Env) (S : Type) (w : World S) (t0 : Z)
         (sched : list Choice) (h : Host S),
    frames env ->
    run env VPart000 sched (fn_onReadyTensorCamera env VPart000 w t0) = Some h ->
    loads (world h) = (loads w + count_starts (hist h))%nat.
Proof.
  intros env S w t0 sched h Hfr Hrun.
  refine (@run_preserves env S VPart000
            (fun h => loads (world h) = (loads w + count_starts (hist h))%nat)
            _ _ _ _ sched (fn_onReadyTensorCamera env VPart000 w t0) h _ Hrun).
  - intros h0 d HP. exact HP.
  - intros h0 i t HL _. cbn [world hist loop_resume].
    destruct (part000_loop_resume_fields env (world h0) t) as [_ [Hl _]].
    rewrite Hl. exact HL.
  - intros h0 i due t HL _ _. cbn [world hist timeout_cb]. exact HL.
  - intros h0 i HL _. unfold loop_begin. rewrite next_image_resolves.
    cbn [world hist]. rewrite estimate_begin_loads.
    destruct (Hfr (pulled (world h0))) as [t Hi]. rewrite Hi.
    cbn [loads]. unfold count_starts in *. cbn [filter is_cycle_start List.length].
    lia.
  - unfold fn_onReadyTensorCamera, loop_begin. rewrite next_image_resolves.
    cbn [world hist]. rewrite estimate_begin_loads.
    destruct (Hfr (pulled w)) as [t Hi]. rewrite Hi.
    cbn. lia.
Qed.

Lemma X10_part000_loads_once_per_cycle_witness :
  let env := env_with "granted" (Resolved true) (Resolved (model_returning [])) in
  match run env VPart000 (cycles 2)
          (fn_onReadyTensorCamera env VPart000 (fresh_world tt) 0) with
  | Some h => loads (world h) = (0 + count_starts (hist h))%nat /\
              loads (world h) = 3%nat
  | None => False
  end.
Proof.
  intros env.
  destruct (run env VPart000 (cycles 2)
              (fn_onReadyTensorCamera env VPart000 (fresh_world tt) 0)) as [h|] eqn:E.
  - split.
    + refine (@X10_part000_loads_once_per_cycle _ _ _ _ _ _ _ E).
      intros k. exists k. reflexivity.
    + vm_compute in E. injection E as <-. reflexivity.
  - vm_compute in E. discriminate E.
Defined.

Lemma count_end_scope_app (l1 l2 : list Event) :
  count_end_scope (l1 ++ l2) = (count_end_scope l1 + count_end_scope l2)%nat.
Proof. unfold count_end_scope. now rewrite filter_app, length_app. Qed.

Lemma count_end_scope_single (e : Event) :
  count_end_scope [e] = if is_end_scope e then 1%nat else 0%nat.
Proof. unfold count_end_scope; simpl. now destruct (is_end_scope e). Qed.

Lemma count_end_scope_disposes (l : list Tensor) :
  count_end_scope (map EvDispose l) = 0%nat.
Proof. induction l as [|x l IH]; [reflexivity | exact IH]. Qed.

Lemma count_start_scope_app (l1 l2 : list Event) :
  count_start_scope (l1 ++ l2) = (count_start_scope l1 + count_start_scope l2)%nat.
Proof. unfold count_start_scope. now rewrite filter_app, length_app. Qed.

Lemma count_start_scope_single (e : Event) :
  count_start_scope [e] = if is_start_scope e then 1%nat else 0%nat.
Proof. unfold count_start_scope; simpl. now destruct (is_start_scope e). Qed.

Lemma count_start_scope_disposes (l : list Tensor) :
  count_start_scope (map EvDispose l) = 0%nat.
Proof. induction l as [|x l IH]; [reflexivity | exact IH]. Qed.

(** Split the scope counts over an event log into those of its pieces. *)
Ltac count_scopes :=
  repeat rewrite count_end_scope_app;
  repeat rewrite count_start_scope_app;
  repeat rewrite count_end_scope_single;
  repeat rewrite count_start_scope_single;
  repeat rewrite count_end_scope_disposes;
  repeat rewrite count_start_scope_disposes;
  cbn [is_end_scope is_start_scope];
  count_events.

Lemma app_loop_resume_scopes {S} (w : World S) init (t : Tensor) :
  (count_end_scope (events (fst (AppTsx.loop_resume init (Some t) w)))
   + count_error_logs (events w)
   = count_error_logs (events (fst (AppTsx.loop_resume init (Some t) w)))
     + count_end_scope (events w))%nat /\
  count_start_scope (events (fst (AppTsx.loop_resume init (Some t) w)))
  = count_start_scope (events w).
Proof.
  rewrite app_loop_resume_unfold.
  destruct (blazefaceModel init) as [m|] eqn:Hm.
  - destruct (estimateFaces m t false (Some true)) as [ps|e] eqn:He.
    + rewrite (app_resume_resolved w init t Hm He). cbn [fst events].
      split; count_scopes; lia.
    + rewrite (app_resume_rejected w init t Hm He). cbn [fst events].
      split; count_scopes; lia.
  - rewrite (app_resume_no_model w init t Hm). cbn [fst events].
    split; count_scopes; lia.
Qed.

Lemma app_estimate_begin_scopes {S} (w : World S) init (t : option Tensor) :
  count_end_scope (events (AppTsx.estimate_begin init t w))
  = count_end_scope (events w) /\
  count_start_scope (events (AppTsx.estimate_begin init t w))
  = count_start_scope (events w).
Proof.
  unfold AppTsx.estimate_begin.
  destruct t as [t|]; [destruct (blazefaceModel init) as [m|]|];
    cbn [fst emit dispose throw events]; split; count_scopes; lia.
Qed.

(** X11: in App.tsx every failed cycle closes an engine scope.  While the
    camera has frames, over every schedule the number of
    [tf.engine().endScope()] calls made by the loop equals the number of
    cycle errors it has logged: one per failure, although the only
    [startScope()] is the one of initialization. *)
Theorem X11_app_end_scope_per_failure :
  forall (env : Env) (S : Type) (init : LoadModel) (w : World S) (t0 : Z)
         (sched : list Choice) (h : Host S),
    frames env ->
    run env (VApp init) sched (fn_onReadyTensorCamera env (VApp init) w t0) = Some h ->
    (count_end_scope (events (world h)) + count_error_logs (events w)
     = count_error_logs (events (world h)) + count_end_scope (events w))%nat /\
    count_start_scope (events (world h)) = count_start_scope (events w).
Proof.
  intros env S init w t0 sched h Hfr Hrun.
  refine (proj2 (@run_preserves env S (VApp init)
            (fun h => forallb has_frame (tasks h) = true /\
                      ((count_end_scope (events (world h)) + count_error_logs (events w)
                        = count_error_logs (events (world h))
                          + count_end_scope (events w))%nat /\
                       count_start_scope (events (world h))
                       = count_start_scope (events w)))
            _ _ _ _ sched (fn_onReadyTensorCamera env (VApp init) w t0) h _ Hrun)).
  - intros h0 d HP. exact HP.
  - intros h0 i t [HF [HC HS]] Hn. cbn [world hist tasks loop_resume].
    pose proof (forallb_nth_error has_frame i (tasks h0) HF Hn) as Ht.
    destruct t as [t|]; [|discriminate Ht].
    destruct (app_loop_resume_scopes (world h0) init t) as [Hc Hs].
    split; [|split; [lia | congruence]].
    rewrite forallb_app, (forallb_remove_nth has_frame i _ HF).
    rewrite app_loop_resume_unfold.
    now destruct (AppTsx.estimate_resume init (Some t) (world h0)) as [w1 [b|e]].
  - intros h0 i due t [HF [HC HS]] Hn _. cbn [world hist tasks timeout_cb].
    pose proof (forallb_nth_error has_frame i (tasks h0) HF Hn) as Ht.
    destruct t as [t|]; [|discriminate Ht].
    unfold AppTsx.timeout_cb, bind, dispose, emit. cbn [fst snd events].
    split; [|split].
    + rewrite forallb_app, (forallb_remove_nth has_frame i _ HF). reflexivity.
    + count_scopes. lia.
    + rewrite <- HS. count_scopes. lia.
  - intros h0 i [HF [HC HS]] Hn. unfold loop_begin. rewrite next_image_resolves.
    cbn [world hist tasks estimate_begin].
    destruct (Hfr (pulled (world h0))) as [t Hi]. rewrite Hi.
    match goal with
    | |- context [AppTsx.estimate_begin init ?t ?w] =>
        destruct (app_estimate_begin_scopes w init t) as [Be Bs];
        destruct (estimate_begin_fields env (VApp init) t w) as [_ [_ [_ [_ Bc]]]];
        cbn [estimate_begin] in Bc; rewrite Be, Bs, Bc
    end.
    cbn [events]. split; [|split].
    + rewrite forallb_app, (forallb_remove_nth has_frame i _ HF). reflexivity.
    + count_scopes. lia.
    + rewrite <- HS. count_scopes. lia.
  - unfold fn_onReadyTensorCamera, loop_begin. rewrite next_image_resolves.
    cbn [world hist tasks estimate_begin].
    destruct (Hfr (pulled w)) as [t Hi]. rewrite Hi.
    match goal with
    | |- context [AppTsx.estimate_begin init ?t ?w] =>
        destruct (app_estimate_begin_scopes w init t) as [Be Bs];
        destruct (estimate_begin_fields env (VApp init) t w) as [_ [_ [_ [_ Bc]]]];
        cbn [estimate_begin] in Bc; rewrite Be, Bs, Bc
    end.
    cbn [events app]. split; [reflexivity|]. split.
    + count_scopes. lia.
    + count_scopes. lia.
Qed.

Lemma X11_app_end_scope_per_failure_witness :
  let env := env_with "granted" (Resolved true) (Resolved (model_returning [])) in
  let v := VApp (loaded (model_rejecting (Error "boom"))) in
  match run env v (cycles 2) (fn_onReadyTensorCamera env v (ready_world tt) 0) with
  | Some h => (count_end_scope (events (world h)) + 0
               = count_error_logs (events (world h)) + 0)%nat
  | None => False
  end.
Proof.
  intros env v.
  destruct (run env v (cycles 2)
              (fn_onReadyTensorCamera env v (ready_world tt) 0)) as [h|] eqn:E.
  - refine (proj1 (@X11_app_end_scope_per_failure _ _ _ _ _ _ _ _ E)).
    intros k. exists k. reflexivity.
  - vm_compute in E. discriminate E.
Defined.

Lemma run_idle env {S} (v : Variant) (sched : list Choice) :
  forall h h' : Host S,
    tasks h = [] -> run env v sched h = Some h' ->
    tasks h' = [] /\ world h' = world h /\ hist h' = hist h.
Proof.
  induction sched as [|c sched IH]; simpl; intros h h' Ht Hr.
  - injection Hr as <-. auto.
  - destruct c as [d|i]; simpl in Hr.
    + destruct (0 <=? d); [|discriminate].
      destruct (IH {| now := now h + d; tasks := tasks h; hist := hist h;
                      world := world h |} h' Ht Hr) as [H1 [H2 H3]]. auto.
    + unfold fire in Hr. rewrite Ht in Hr. destruct i; discriminate.
Qed.

(** X12: what a missing frame does.  If [images.next().value] is undefined
    when the camera becomes ready, then in App.tsx the cycle is logged as
    an error, its timer callback throws at [_tensorImage.dispose()] before
    [requestAnimationFrame] and the loop is over for good: no task is left
    and no later schedule changes the world.  In part_000 the same cycle
    resolves, logs no error and the next frame callback is pending. *)
Theorem X12_missing_frame_stops_app_loop :
  forall (env : Env) (S : Type) (init : LoadModel) (w : World S) (t0 d : Z),
    images env (pulled w) = None ->
    2000 <= d ->
    (exists h,
        run env (VApp init) [Fire 0%nat; Advance d; Fire 0%nat]
            (fn_onReadyTensorCamera env (VApp init) w t0) = Some h /\
        tasks h = [] /\
        count_error_logs (events (world h))
          = Datatypes.S (count_error_logs (events w)) /\
        forall sched h',
          run env (VApp init) sched h = Some h' ->
          tasks h' = [] /\ world h' = world h) /\
    (exists h,
        run env VPart000 [Fire 0%nat; Advance d; Fire 0%nat]
            (fn_onReadyTensorCamera env VPart000 w t0) = Some h /\
        tasks h = [TRaf] /\
        count_error_logs (events (world h)) = count_error_logs (events w) /\
        loads (world h) = loads w).
Proof.
  intros env S init w t0 d Hi Hd.
  assert (H0 : (0 <=? d) = true) by (apply Z.leb_le; lia).
  assert (H1 : (t0 + 2000 <=? t0 + d) = true) by (apply Z.leb_le; lia).
  unfold fn_onReadyTensorCamera, loop_begin. rewrite !next_image_resolves.
  cbn [world pulled now tasks hist app]. rewrite Hi.
  unfold estimate_begin, AppTsx.estimate_begin, Part000.estimate_begin.
  cbn [dispose throw fst track].
  split.
  - unfold run at 1. unfold choose, fire.
    cbn [tasks nth_error world now hist loop_resume].
    rewrite app_loop_resume_unfold, app_resume_undefined.
    cbn [tasks nth_error world now hist remove_nth firstn skipn app].
    rewrite H0. cbn [tasks nth_error world now hist remove_nth firstn skipn app].
    rewrite H1. unfold timeout_cb, AppTsx.timeout_cb, bind, dispose, throw.
    cbn [tasks nth_error world now hist remove_nth firstn skipn app].
    eexists. split; [reflexivity|]. cbn [tasks world events].
    split; [reflexivity|]. split.
    + count_events. unfold count_error_logs. cbn. lia.
    + intros sched h' Hr.
      apply run_idle in Hr; [|reflexivity]. destruct Hr as [Ht [Hw _]].
      split; [exact Ht | exact Hw].
  - unfold run, choose, fire. cbn [tasks nth_error world now hist loop_resume].
    rewrite part000_loop_resume_unfold, part000_resume_undefined.
    cbn [tasks nth_error world now hist remove_nth firstn skipn app].
    rewrite H0. cbn [tasks nth_error world now hist remove_nth firstn skipn app].
    rewrite H1. unfold timeout_cb, Part000.timeout_cb, emit.
    cbn [tasks nth_error world now hist remove_nth firstn skipn app].
    eexists. split; [reflexivity|]. cbn [tasks world events loads].
    split; [reflexivity|]. split; [|reflexivity].
    count_events. unfold count_error_logs. cbn. lia.
Qed.

Lemma X12_missing_frame_stops_app_loop_witness :
  exists h,
    run env_without_frames (VApp (loaded (model_returning [])))
        [Fire 0%nat; Advance 2000; Fire 0%nat]
        (fn_onReadyTensorCamera env_without_frames
           (VApp (loaded (model_returning []))) (ready_world tt) 0) = Some h /\
    tasks h = [].
Proof.
  destruct (@X12_missing_frame_stops_app_loop env_without_frames unit
              (loaded (model_returning [])) (ready_world tt) 0 2000
              eq_refl ltac:(lia)) as [[h [Hr [Ht _]]] _].
  exists h. split; [exact Hr | exact Ht].
Defined.

(** ** Initialization, continued *)

(** X13: every rejection of [fn_initSetting] names the step that failed
    and carries its cause.  The rejection is the permission Error when the
    status is not "granted"; otherwise it is the Tensorflow Error wrapping
    what [tf.setBackend] rejected with, or the model-load Error wrapping
    what [blazeface.load] rejected with; there is no other rejection.  The
    cause is rendered as the template literal renders it: an Error with an
    empty message is its name alone. *)
Theorem X13_init_rejection_names_its_cause :
  forall (env : Env) (w : World LoadModel) (e : JsError),
    snd (AppTsx.fn_initSetting env w) = Rejected e ->
    (permission_status env <> "granted" /\
     e = Error AppTsx.permission_message) \/
    (permission_status env = "granted" /\
     exists c, backend env = Rejected c /\
               e = Error ("[-] Tensorflow Ready Error: " ++ render_error c)) \/
    (permission_status env = "granted" /\
     (exists b, backend env = Resolved b) /\
     exists c, blazeface_load env (loads w) = Rejected c /\
               e = Error ("[-] Blazeface Model Load Error: " ++ render_error c)).
Proof.
  intros env w e Hr.
  destruct (app_init_cases env w)
    as [Hs | [[Hs [c Hb]] | [[Hs [b [c [Hb Hl]]]] | [Hs [b [m [Hb Hl]]]]]]].
  - rewrite (app_init_denied env w Hs) in Hr. injection Hr as <-. left. auto.
  - rewrite (app_init_backend_rejected env w Hs Hb) in Hr. injection Hr as <-.
    right; left. eauto.
  - rewrite (app_init_load_rejected env w Hs Hb Hl) in Hr. injection Hr as <-.
    right; right. split; [exact Hs|]. split; [exists b; exact Hb|].
    exists c. split; [exact Hl | reflexivity].
  - rewrite (app_init_success env w Hs Hb Hl) in Hr. discriminate Hr.
Qed.

Lemma X13_init_rejection_names_its_cause_witness :
  let env := env_with "granted" (Resolved true) (Rejected (Error "")) in
  exists c, blazeface_load env 0 = Rejected c /\
            Error "[-] Blazeface Model Load Error: Error"
            = Error ("[-] Blazeface Model Load Error: " ++ render_error c).
Proof.
  intros env.
  destruct (@X13_init_rejection_names_its_cause env
              (fresh_world AppTsx.initial_state)
              (Error "[-] Blazeface Model Load Error: Error") eq_refl)
    as [[Hs _] | [[_ [c [Hb _]]] | [_ [_ H]]]].
  - exfalso. apply Hs. reflexivity.
  - discriminate Hb.
  - exact H.
Defined.

(** X14: [fn_initSetting] opens the engine scope exactly when the
    permission is granted and [tf.setBackend] resolves, whatever it resolves
    to, and never closes it.  So when the model load fails afterwards,
    initialization rejects with the scope already opened and the state
    still unset. *)
Theorem X14_init_opens_scope_once :
  forall (env : Env) (w : World LoadModel),
    let r := AppTsx.fn_initSetting env w in
    count_end_scope (events (fst r)) = count_end_scope (events w) /\
    count_start_scope (events (fst r))
    = (count_start_scope (events w)
       + if (permission_status env =? "granted")%string
         then match backend env with Resolved _ => 1 | Rejected _ => 0 end
         else 0)%nat /\
    (forall b c, permission_status env = "granted" -> backend env = Resolved b ->
                 blazeface_load env (loads w) = Rejected c ->
                 count_start_scope (events (fst r))
                 = Datatypes.S (count_start_scope (events w)) /\
                 scopes (fst r) = [] :: scopes w /\
                 rstate (fst r) = rstate w).
Proof.
  intros env w r. subst r.
  unfold count_end_scope, count_start_scope.
  destruct (app_init_cases env w)
    as [Hs | [[Hs [c Hb]] | [[Hs [b [c [Hb Hl]]]] | [Hs [b [m [Hb Hl]]]]]]].
  - rewrite (app_init_denied env w Hs). cbn [fst events rstate scopes].
    apply String.eqb_neq in Hs. rewrite Hs.
    rewrite !filter_app, !length_app. cbn.
    split; [lia|]. split; [lia|]. intros b c Hs'.
    apply String.eqb_eq in Hs'. congruence.
  - rewrite (app_init_backend_rejected env w Hs Hb). cbn [fst events rstate scopes].
    rewrite Hs, Hb. rewrite !filter_app, !length_app. cbn.
    split; [lia|]. split; [lia|]. intros b c0 _ Hb'. congruence.
  - rewrite (app_init_load_rejected env w Hs Hb Hl). cbn [fst events rstate scopes].
    rewrite Hs, Hb. rewrite !filter_app, !length_app. cbn.
    split; [lia|]. split; [lia|]. intros b' c0 _ _ _.
    split; [lia | split; reflexivity].
  - rewrite (app_init_success env w Hs Hb Hl). cbn [fst events rstate scopes].
    rewrite Hs, Hb. rewrite !filter_app, !length_app. cbn.
    split; [lia|]. split; [lia|]. intros b' c0 _ _ Hl'. congruence.
Qed.

(** X15: in part_000 initialization never rejects and the permission plays
    no part in it.  Whatever the permission status, the effect resolves,
    [isTfReady] becomes true exactly when [tf.ready()] resolves (and keeps
    its value otherwise), and no model is loaded. *)
Theorem X15_part000_init_ignores_permission :
  forall (env : Env) (w : World bool),
    let r := Part000.useEffect_init env w in
    snd r = Resolved tt /\
    rstate (fst r) = match ready env with
                     | Resolved _ => true
                     | Rejected _ => rstate w
                     end /\
    loads (fst r) = loads w /\
    canvas (fst r) = canvas w.
Proof.
  intros env w r. subst r.
  unfold Part000.useEffect_init, Part000.fn_requestPermisison, Part000.fn_tfReady,
    bind, requestCameraPermissionsAsync, bind, emit, ret.
  cbn [fst snd].
  destruct (negb (permission_status env =? "granted")%string);
    unfold then_catch, bind, tf_ready, set_state, console_log, emit;
    cbn [fst snd]; destruct (ready env) as [u|e]; repeat split.
Qed.

(** X16: where a cycle's error comes from.  With a tensor, the estimate
    function of App.tsx rejects only when the model's [estimateFaces]
    rejects.  While an engine scope is open the rejection is a new Error
    wrapping that cause; when none is open, as from the second failure on,
    [endScope()] throws inside the [.catch] and the rejection is the
    engine's TypeError instead, the cause being lost.  The estimate function
    of part_000 rejects only when the load or the estimate rejects, and
    then with that very cause.  In both, [loop] logs exactly the error the
    estimate function rejected with. *)
Theorem X16_cycle_error_is_the_models :
  forall (env : Env) (S : Type) (w : World S) (init : LoadModel)
         (t : Tensor) (e : JsError),
    (snd (AppTsx.fn_estimateBlazeFace init (Some t) w) = Rejected e ->
     (exists m c, blazefaceModel init = Some m /\
                  estimateFaces m t false (Some true) = Rejected c /\
                  (scopes w <> [] ->
                   e = Error ("blazeface Estimate Error : " ++ render_error c)) /\
                  (scopes w = [] -> exists msg, e = TypeError msg)) /\
     In (EvLog (LogError e)) (events (fst (AppTsx.loop_cycle init (Some t) w)))) /\
    (snd (Part000.fn_estimateBlazeFace env (Some t) w) = Rejected e ->
     (blazeface_load env (loads w) = Rejected e \/
      exists m, blazeface_load env (loads w) = Resolved m /\
                estimateFaces m t false None = Rejected e) /\
     In (EvLog (LogError e)) (events (fst (Part000.loop_cycle env (Some t) w)))).
Proof.
  intros env S w init t e. split.
  - rewrite app_loop_cycle_unfold.
    destruct (blazefaceModel init) as [m|] eqn:Hm.
    + destruct (estimateFaces m t false (Some true)) as [ps|c] eqn:He.
      * rewrite (app_estimate_resolved w init t Hm He). discriminate.
      * rewrite (app_estimate_rejected w init t Hm He). cbn [fst snd events].
        intros H. injection H as <-. split.
        -- exists m, c. split; [reflexivity|]. split; [exact He|].
           destruct (scopes w) as [|tracked outer].
           ++ split; [intros H; now contradiction H|].
              intros _. unfold no_active_scope. eauto.
           ++ split; [reflexivity | discriminate].
        -- apply in_or_app. right. left. reflexivity.
    + rewrite (app_estimate_no_model w init t Hm). discriminate.
  - rewrite part000_loop_cycle_unfold.
    destruct (blazeface_load env (loads w)) as [m|c] eqn:Hl.
    + destruct (estimateFaces m t false None) as [ps|c] eqn:He.
      * rewrite (part000_estimate_resolved env w t Hl He). discriminate.
      * rewrite (part000_estimate_rejected env w t Hl He). cbn [fst snd events].
        intros H. injection H as <-. split; [eauto|].
        apply in_or_app. right. left. reflexivity.
    + rewrite (part000_estimate_load_rejected env w t Hl). cbn [fst snd events].
      intros H. injection H as <-. split; [auto|].
      apply in_or_app. right. left. reflexivity.
Qed.

Lemma X16_cycle_error_is_the_models_witness :
  In (EvLog (LogError (Error "blazeface Estimate Error : Error: boom")))
     (events (fst (AppTsx.loop_cycle (loaded (model_rejecting (Error "boom")))
                     (Some 0%nat) (ready_world tt)))).
Proof.
  exact (proj2 (proj1 (X16_cycle_error_is_the_models
                         (env_with "granted" (Resolved true)
                            (Resolved (model_returning [])))
                         (ready_world tt) (loaded (model_rejecting (Error "boom")))
                         0%nat (Error "blazeface Estimate Error : Error: boom"))
                  eq_refl)).
Defined.

(** ** The camera-only component of part_000 *)

Lemma camera_loop_unfold env {S} (w : World S) :
  Part000Camera.loop env w =
    ({| events := ((events w ++ [EvNext]) ++ [EvSetTimeout 1000])%list;
        canvas := canvas w; rstate := rstate w;
        pulled := Datatypes.S (pulled w); loads := loads w;
        scopes := track (images env (pulled w)) (scopes w) |},
     Resolved 1000).
Proof. reflexivity. Qed.

Lemma camera_run_preserves env {S} (P : Host S -> Prop) :
  (forall h d, P h -> 0 <= d ->
     P {| now := now h + d; tasks := tasks h; hist := hist h; world := world h |}) ->
  (forall h i due t, P h -> nth_error (tasks h) i = Some (TTimeout due t) ->
     due <= now h ->
     P {| now := now h; tasks := remove_nth i (tasks h) ++ [TRaf];
          hist := TimerFired (now h) :: hist h;
          world := fst (Part000Camera.timeout_cb (world h)) |}) ->
  (forall h i, P h -> nth_error (tasks h) i = Some TRaf ->
     P (Part000Camera.call_loop env
          {| now := now h; tasks := remove_nth i (tasks h);
             hist := RafFired (now h) :: hist h; world := world h |})) ->
  forall sched h h', P h -> Part000Camera.run env sched h = Some h' -> P h'.
Proof.
  intros Hadv Htim Hraf.
  induction sched as [|c sched IH]; simpl; intros h h' HP Hr.
  - injection Hr as <-. exact HP.
  - destruct (Part000Camera.choose env c h) as [h1|] eqn:Hc; [|discriminate].
    apply (IH h1 h'); [|exact Hr]. clear IH Hr.
    destruct c as [d|i]; simpl in Hc.
    + destruct (0 <=? d) eqn:Hd; [|discriminate]. apply Z.leb_le in Hd.
      injection Hc as <-. now apply Hadv.
    + unfold Part000Camera.fire in Hc.
      destruct (nth_error (tasks h) i) as [[t|due t|]|] eqn:Hn;
        [discriminate| | |discriminate].
      * destruct (due <=? now h) eqn:Hd; [|discriminate].
        apply Z.leb_le in Hd. specialize (Htim h i due t HP Hn Hd).
        unfold Part000Camera.timeout_cb, emit in Hc, Htim.
        injection Hc as <-. exact Htim.
      * injection Hc as <-. now apply Hraf.
Qed.




Lemma count_dispose_pull_or_schedule (t : Tensor) (l : list Event) :
  forallb is_pull_or_schedule l = true -> count_dispose t l = 0%nat.
Proof.
  induction l as [|e l IH]; [reflexivity|]. cbn [forallb].
  intros H. apply andb_prop in H. destruct H as [He Hl].
  unfold count_dispose in *. cbn [filter].
  destruct e; try discriminate He; cbn [is_dispose]; exact (IH Hl).
Qed.

(** X18: the camera-only loop only pulls frames.  Over every schedule all
    it adds to the log are [images.next()], [setTimeout] and
    [requestAnimationFrame] calls, one pull per cycle; it loads no model,
    touches neither canvas nor state, and never calls [dispose] on a
    tensor it pulled. *)
Theorem X18_camera_loop_only_pulls :
  forall (env : Env) (S : Type) (w : World S) (t0 : Z)
         (sched : list Choice) (h : Host S),
    Part000Camera.run env sched (Part000Camera.fn_onReadyTensorCamera env w t0)
      = Some h ->
    (exists added, events (world h) = (events w ++ added)%list /\
                   forallb is_pull_or_schedule added = true) /\
    pulled (world h) = (pulled w + count_starts (hist h))%nat /\
    (forall t, count_dispose t (events (world h)) = count_dispose t (events w)) /\
    loads (world h) = loads w /\ canvas (world h) = canvas w /\
    rstate (world h) = rstate w.
Proof.
  intros env S w t0 sched h Hrun.
  assert (HP :
    (exists added, events (world h) = (events w ++ added)%list /\
                   forallb is_pull_or_schedule added = true) /\
    pulled (world h) = (pulled w + count_starts (hist h))%nat /\
    loads (world h) = loads w /\ canvas (world h) = canvas w /\
    rstate (world h) = rstate w).
  { refine (@camera_run_preserves env S
              (fun h =>
                 (exists added, events (world h) = (events w ++ added)%list /\
                                forallb is_pull_or_schedule added = true) /\
                 pulled (world h) = (pulled w + count_starts (hist h))%nat /\
                 loads (world h) = loads w /\ canvas (world h) = canvas w /\
                 rstate (world h) = rstate w)
              _ _ _ sched (Part000Camera.fn_onReadyTensorCamera env w t0) h _ Hrun).
    - intros h0 d HP _. exact HP.
    - intros h0 i due t [[added [He Hf]] [Hp [Hl [Hc Hs]]]] _ _.
      unfold Part000Camera.timeout_cb, emit.
      cbn [world fst events pulled loads canvas rstate hist].
      split; [|auto].
      exists (added ++ [EvRequestAnimationFrame])%list.
      rewrite He, <- app_assoc. split; [reflexivity|].
      rewrite forallb_app, Hf. reflexivity.
    - intros h0 i [[added [He Hf]] [Hp [Hl [Hc Hs]]]] _.
      unfold Part000Camera.call_loop. rewrite camera_loop_unfold.
      cbn [world fst events pulled loads canvas rstate hist].
      split; [|split; [|auto]].
      + exists (added ++ [EvNext; EvSetTimeout 1000])%list.
        rewrite He, <- !app_assoc. split; [reflexivity|].
        rewrite forallb_app, Hf. reflexivity.
      + rewrite Hp. unfold count_starts. cbn [filter is_cycle_start List.length]. lia.
    - unfold Part000Camera.fn_onReadyTensorCamera, Part000Camera.call_loop.
      rewrite camera_loop_unfold.
      cbn [world fst events pulled loads canvas rstate hist].
      split; [|split; [|auto]].
      + exists [EvNext; EvSetTimeout 1000]. rewrite <- app_assoc.
        split; reflexivity.
      + cbn. lia. }
  destruct HP as [[added [He Hf]] [Hp [Hl [Hc Hs]]]].
  split; [eauto|]. split; [exact Hp|]. split; [|auto].
  intros t. rewrite He, count_dispose_app.
  rewrite (count_dispose_pull_or_schedule t added Hf). lia.
Qed.

Lemma X18_camera_loop_only_pulls_witness :
  let env := env_with "granted" (Resolved true) (Resolved (model_returning [])) in
  match Part000Camera.run env [Advance 1000; Fire 0%nat; Fire 0%nat]
          (Part000Camera.fn_onReadyTensorCamera env (fresh_world tt) 0) with
  | Some h => pulled (world h) = (0 + count_starts (hist h))%nat
  | None => False
  end.
Proof.
  intros env.
  destruct (Part000Camera.run env [Advance 1000; Fire 0%nat; Fire 0%nat]
              (Part000Camera.fn_onReadyTensorCamera env (fresh_world tt) 0))
    as [h|] eqn:E.
  - exact (proj1 (proj2 (@X18_camera_loop_only_pulls _ _ _ _ _ _ E))).
  - vm_compute in E. discriminate E.
Defined.
